(** * The record-store facade of [database.py]

    A shallow embedding of the [DatabaseManager] class: connection setup for
    the three backends, the single-record operations and the batch migration
    [sync_mongodb_to_hcd].  The vendor SDKs (pymongo, astrapy) are outside
    the repository; their collections appear here behind the interface
    [Collection], and every call the facade makes into an SDK is recorded in
    the world's [trace]. *)

From stdpp Require Import gmap strings list fin_maps pretty.

Open Scope string_scope.

(** ** Python values, records and exceptions *)

(** The values a record field can hold.  [VObj] stands for any other Python
    object (a float, a list, a nested dict, an [ObjectId]); the facade only
    ever asks such an object for its truth value and for its [str()]. *)
Inductive PyVal :=
  | VNone
  | VBool (b : bool)
  | VInt (z : Z)
  | VStr (s : string)
  | VObj (truth : bool) (text : string).

#[global] Instance PyVal_eq_dec : EqDecision PyVal.
Proof. solve_decision. Defined.

(** [bool(v)] *)
Definition truthy (v : PyVal) : bool :=
  match v with
  | VNone => false
  | VBool b => b
  | VInt z => negb (z =? 0)%Z
  | VStr s => negb (String.eqb s EmptyString)
  | VObj t _ => t
  end.

(** [str(v)], which is also what an f-string placeholder renders. *)
Definition py_str (v : PyVal) : string :=
  match v with
  | VNone => "None"
  | VBool true => "True"
  | VBool false => "False"
  | VInt z => pretty z
  | VStr s => s
  | VObj _ t => t
  end.

Definition is_str (v : PyVal) : bool :=
  match v with VStr _ => true | _ => false end.

(** A user record is a [Dict[str, Any]]. *)
Abbreviation Dict := (gmap string PyVal).

(** The exceptions the module meets; all of them derive from [Exception].
    [DriverError] is whatever an SDK call raises. *)
Inductive exn :=
  | ValueError (msg : string)
  | AttributeError (msg : string)
  | DriverError (msg : string).

(** [str(e)] *)
Definition exn_str (e : exn) : string :=
  match e with
  | ValueError m | AttributeError m | DriverError m => m
  end.

Inductive outcome (A : Type) :=
  | Ok (a : A)
  | Raise (e : exn).
Arguments Ok {A} a.
Arguments Raise {A} e.

(** What the migration report holds under its four keys. *)
Inductive RVal :=
  | RBool (b : bool)
  | RStr (s : string)
  | RInt (n : nat)
  | RStrs (l : list string).

Abbreviation Report := (gmap string RVal).

(** ** The collection interface of the SDKs

    "Same API for both MongoDB and HCD": the five calls the facade issues on
    [self.collection].  A call may raise and may still have changed the
    collection when it does (a bulk insert that stops half way). *)

(** A cursor yields its documents and then either stops or raises. *)
Definition Cursor : Type := list Dict * option exn.

Class Collection (C : Type) := {
  insert_one : Dict → C → outcome unit * C;
  insert_many : list Dict → C → outcome unit * C;
  find : C → outcome Cursor;
  find_one : PyVal → C → outcome (option Dict);
  delete_one : PyVal → C → outcome nat * C   (* [deleted_count] *)
}.

(** Which collection a facade is bound to. *)
Inductive Handle := HMongo | HHcd | HAstra.

#[global] Instance Handle_eq_dec : EqDecision Handle.
Proof. solve_decision. Defined.

(** The SDK calls made while connecting. *)
Inductive SetupCall :=
  | MongoClient (uri : string)
  | MongoUsers (database_name : string)
  | HcdGetDatabase (api_endpoint username password : string)
  | HcdCreateKeyspace (keyspace : string)
  | HcdCreateCollection (name : string)
  | HcdGetCollection (name : string)
  | AstraDB (db_id region token namespace : string)
  | AstraCollection (name : string).

(** Every call into an SDK. *)
Inductive Call :=
  | Setup (c : SetupCall)
  | InsertOne (h : Handle) (doc : Dict)
  | InsertMany (h : Handle) (docs : list Dict)
  | Find (h : Handle)
  | FindOne (h : Handle) (key : PyVal)
  | DeleteOne (h : Handle) (key : PyVal).

Record DatabaseManager := {
  db_type : string;
  collection : option Handle
}.

Section Facade.
Context {C : Type} `{!Collection C}.

(** ** The world outside the facade

    The process environment, the three "users" collections, the failures
    the services answer connection calls with, the identifiers
    [uuid.uuid4()] hands out (the [n]-th call returns [uuid_source n]) and
    the calls made so far. *)
Record World := {
  environ : gmap string string;
  mongo_users : C;
  hcd_users : C;
  astra_users : C;
  setup_fault : SetupCall → option string;
  uuid_source : nat → string;
  uuid_calls : nat;
  trace : list Call
}.

Definition users_of (h : Handle) (w : World) : C :=
  match h with
  | HMongo => mongo_users w
  | HHcd => hcd_users w
  | HAstra => astra_users w
  end.

Definition set_users (h : Handle) (c : C) (w : World) : World :=
  match h with
  | HMongo =>
      {| environ := environ w; mongo_users := c; hcd_users := hcd_users w;
         astra_users := astra_users w; setup_fault := setup_fault w;
         uuid_source := uuid_source w; uuid_calls := uuid_calls w;
         trace := trace w |}
  | HHcd =>
      {| environ := environ w; mongo_users := mongo_users w; hcd_users := c;
         astra_users := astra_users w; setup_fault := setup_fault w;
         uuid_source := uuid_source w; uuid_calls := uuid_calls w;
         trace := trace w |}
  | HAstra =>
      {| environ := environ w; mongo_users := mongo_users w;
         hcd_users := hcd_users w; astra_users := c;
         setup_fault := setup_fault w; uuid_source := uuid_source w;
         uuid_calls := uuid_calls w; trace := trace w |}
  end.

Definition record_call (c : Call) (w : World) : World :=
  {| environ := environ w; mongo_users := mongo_users w;
     hcd_users := hcd_users w; astra_users := astra_users w;
     setup_fault := setup_fault w; uuid_source := uuid_source w;
     uuid_calls := uuid_calls w; trace := trace w ++ [c] |}.

(** ** Computations that read and change the world and may raise *)
Definition M (A : Type) : Type := World → outcome A * World.

Definition ret {A} (a : A) : M A := λ w, (Ok a, w).
Definition raise {A} (e : exn) : M A := λ w, (Raise e, w).
Definition bind {A B} (m : M A) (k : A → M B) : M B :=
  λ w, match m w with
       | (Ok a, w') => k a w'
       | (Raise e, w') => (Raise e, w')
       end.
(** [try: m except Exception as e: handler e] *)
Definition try_except {A} (m : M A) (handler : exn → M A) : M A :=
  λ w, match m w with
       | (Ok a, w') => (Ok a, w')
       | (Raise e, w') => handler e w'
       end.

Notation "x <~ m ;; k" := (bind m (λ x, k))
  (at level 100, m at next level, right associativity).
Notation "m ;;; k" := (bind m (λ _, k))
  (at level 100, right associativity).

(** [os.getenv(key)] and [os.getenv(key, default)] *)
Definition getenv (key : string) : M (option string) :=
  λ w, (Ok (environ w !! key), w).
Definition getenv_default (key fallback : string) : M string :=
  λ w, (Ok (default fallback (environ w !! key)), w).

(** A connection call: recorded, and failing when the service says so. *)
Definition sdk (c : SetupCall) : M unit :=
  λ w, match setup_fault w c with
       | None => (Ok tt, record_call (Setup c) w)
       | Some msg => (Raise (DriverError msg), record_call (Setup c) w)
       end.

(** [str(uuid.uuid4())] *)
Definition uuid4_str : World → string * World :=
  λ w, (uuid_source w (uuid_calls w),
        {| environ := environ w; mongo_users := mongo_users w;
           hcd_users := hcd_users w; astra_users := astra_users w;
           setup_fault := setup_fault w; uuid_source := uuid_source w;
           uuid_calls := S (uuid_calls w); trace := trace w |}).

(** ** Calls on [self.collection]

    [self.collection] is [None] until a setup procedure binds it; a method
    call on [None] raises [AttributeError]. *)
Definition none_has_no (attr : string) : exn :=
  AttributeError ("'NoneType' object has no attribute '" ++ attr ++ "'").

Definition coll_insert_one (self : DatabaseManager) (doc : Dict) : M unit :=
  match collection self with
  | None => raise (none_has_no "insert_one")
  | Some h => λ w,
      let w1 := record_call (InsertOne h doc) w in
      let '(r, c) := insert_one doc (users_of h w1) in
      (r, set_users h c w1)
  end.

Definition coll_insert_many (self : DatabaseManager) (docs : list Dict) : M unit :=
  match collection self with
  | None => raise (none_has_no "insert_many")
  | Some h => λ w,
      let w1 := record_call (InsertMany h docs) w in
      let '(r, c) := insert_many docs (users_of h w1) in
      (r, set_users h c w1)
  end.

Definition coll_find (self : DatabaseManager) : M Cursor :=
  match collection self with
  | None => raise (none_has_no "find")
  | Some h => λ w,
      let w1 := record_call (Find h) w in
      (find (users_of h w1), w1)
  end.

Definition coll_find_one (self : DatabaseManager) (key : PyVal) : M (option Dict) :=
  match collection self with
  | None => raise (none_has_no "find_one")
  | Some h => λ w,
      let w1 := record_call (FindOne h key) w in
      (find_one key (users_of h w1), w1)
  end.

Definition coll_delete_one (self : DatabaseManager) (key : PyVal) : M nat :=
  match collection self with
  | None => raise (none_has_no "delete_one")
  | Some h => λ w,
      let w1 := record_call (DeleteOne h key) w in
      let '(r, c) := delete_one key (users_of h w1) in
      (r, set_users h c w1)
  end.

(** ** Connection setup *)

(** [all([a, b, c])] over configuration values: [None] and the empty
    string are falsy. *)
Definition configured (v : option string) : bool :=
  match v with
  | None => false
  | Some s => negb (String.eqb s EmptyString)
  end.

(** The value of a setting that passed the check. *)
Definition setting (v : option string) : string := default EmptyString v.

Definition with_collection (self : DatabaseManager) (h : Handle) : DatabaseManager :=
  {| db_type := db_type self; collection := Some h |}.

Definition with_db_type (self : DatabaseManager) (t : string) : DatabaseManager :=
  {| db_type := t; collection := collection self |}.

Definition astra_incomplete : string :=
  "Astra DB configuration incomplete. Check ASTRA_DB_ID, ASTRA_DB_REGION, and ASTRA_DB_TOKEN".

Definition hcd_incomplete : string :=
  "HCD configuration incomplete. Check HCD_API_ENDPOINT, HCD_USERNAME, and HCD_PASSWORD".

Definition _setup_astra (self : DatabaseManager) : M DatabaseManager :=
  astra_db_id <~ getenv "ASTRA_DB_ID" ;;
  astra_region <~ getenv "ASTRA_DB_REGION" ;;
  astra_token <~ getenv "ASTRA_DB_TOKEN" ;;
  astra_keyspace <~ getenv_default "ASTRA_DB_KEYSPACE" "default_keyspace" ;;
  if negb (configured astra_db_id && configured astra_region && configured astra_token)
  then raise (ValueError astra_incomplete)
  else
    sdk (AstraDB (setting astra_db_id) (setting astra_region)
                 (setting astra_token) astra_keyspace) ;;;
    sdk (AstraCollection "users") ;;;
    ret (with_collection self HAstra).

Definition _setup_mongodb (self : DatabaseManager) : M DatabaseManager :=
  uri <~ getenv_default "MONGODB_URI" "mongodb://localhost:27017/" ;;
  database_name <~ getenv_default "MONGODB_DATABASE" "user_profiles" ;;
  sdk (MongoClient uri) ;;;
  sdk (MongoUsers database_name) ;;;
  ret (with_collection self HMongo).

Definition _setup_hcd (self : DatabaseManager) : M DatabaseManager :=
  api_endpoint <~ getenv "HCD_API_ENDPOINT" ;;
  username <~ getenv "HCD_USERNAME" ;;
  password <~ getenv "HCD_PASSWORD" ;;
  keyspace <~ getenv_default "HCD_KEYSPACE" "default_keyspace" ;;
  if negb (configured api_endpoint && configured username && configured password)
  then raise (ValueError hcd_incomplete)
  else
    sdk (HcdGetDatabase (setting api_endpoint) (setting username)
                        (setting password)) ;;;
    (* Ensure keyspace exists *)
    try_except (sdk (HcdCreateKeyspace keyspace)) (λ _, ret tt) ;;;
    (* Create or get the users collection *)
    try_except (sdk (HcdCreateCollection "users"))
               (λ _, sdk (HcdGetCollection "users")) ;;;
    ret (with_collection self HHcd).

Definition _setup_connection (self : DatabaseManager) : M DatabaseManager :=
  if String.eqb (db_type self) "mongodb" then _setup_mongodb self
  else if String.eqb (db_type self) "hcd" then _setup_hcd self
  else if String.eqb (db_type self) "astra" then _setup_astra self
  else raise (ValueError ("Unsupported database type: " ++ db_type self)).

(** [DatabaseManager()] *)
Definition __init__ : M DatabaseManager :=
  t <~ getenv_default "DATABASE_TYPE" "mongodb" ;;
  _setup_connection {| db_type := t; collection := None |}.


(** ** Single-record operations *)

(** ['_id' not in user_data or not user_data['_id']] *)
Definition lacks_id (user_data : Dict) : bool :=
  match user_data !! "_id" with
  | None => true
  | Some v => negb (truthy v)
  end.

(** [create_user] changes the caller's dict in place and returns that same
    dict.  The first component of the result is the caller's dict as the
    call leaves it, whether the insert raised or not. *)
Definition create_user (self : DatabaseManager) (user_data : Dict)
  : World → Dict * outcome Dict * World :=
  λ w,
    (* Ensure we have a UUID string as _id for both databases *)
    let '(user_data, w) :=
      if lacks_id user_data
      then let '(u, w) := uuid4_str w in
           (<["_id" := VStr u]> user_data, w)
      else (user_data, w) in
    (* Same API for both MongoDB and HCD *)
    match coll_insert_one self user_data w with
    | (Ok _, w) => (user_data, Ok user_data, w)
    | (Raise e, w) => (user_data, Raise e, w)
    end.

Definition get_all_users (self : DatabaseManager) : M (list Dict) :=
  cursor <~ coll_find self ;;
  (* list(cursor) *)
  match cursor with
  | (docs, None) => ret docs
  | (_, Some e) => raise e
  end.

Definition get_user_by_id (self : DatabaseManager) (user_id : string)
  : M (option Dict) :=
  coll_find_one self (VStr user_id).

Definition delete_user (self : DatabaseManager) (user_id : string) : M bool :=
  deleted_count <~ coll_delete_one self (VStr user_id) ;;
  ret (0 <? deleted_count)%nat.

Definition get_database_info (self : DatabaseManager) : gmap string string :=
  {[ "type" := db_type self; "status" := "connected" ]}.

(** ** Migration *)

Definition batch_size : nat := 100.

(** The locals of the loop in [sync_mongodb_to_hcd]. *)
Record SyncState := {
  batch : list Dict;
  total_synced : nat;
  errors : list string
}.

(** [f"User {b_user.get('_id', 'unknown')}: {str(e)}"] *)
Definition error_entry (e : exn) (b_user : Dict) : string :=
  "User " ++ py_str (default (VStr "unknown") (b_user !! "_id")) ++ ": " ++ exn_str e.

(** One [try: insert_many(batch) ... except Exception as e: ...] block. *)
Definition insert_batch (hcd_manager : DatabaseManager) (st : SyncState)
  : M SyncState :=
  try_except
    (coll_insert_many hcd_manager (batch st) ;;;
     ret {| batch := batch st;
            total_synced := total_synced st + length (batch st);
            errors := errors st |})
    (λ e, ret {| batch := batch st;
                 total_synced := total_synced st;
                 errors := errors st ++ map (error_entry e) (batch st) |}).

Definition clear_batch (st : SyncState) : SyncState :=
  {| batch := []; total_synced := total_synced st; errors := errors st |}.

Definition append_user (user : Dict) (st : SyncState) : SyncState :=
  {| batch := batch st ++ [user]; total_synced := total_synced st;
     errors := errors st |}.

(** [for user in cursor: ...] over the documents the cursor yields. *)
Fixpoint sync_loop (hcd_manager : DatabaseManager) (cursor : list Dict)
    (st : SyncState) : M SyncState :=
  match cursor with
  | [] => ret st
  | user :: cursor =>
      let st := append_user user st in
      if (length (batch st) =? batch_size)%nat
      then st <~ insert_batch hcd_manager st ;;
           sync_loop hcd_manager cursor (clear_batch st)
      else sync_loop hcd_manager cursor st
  end.

(** "Setup HCD connection temporarily" *)
Definition temporary_hcd_manager : M DatabaseManager :=
  hcd_manager <~ __init__ ;;
  _setup_hcd (with_db_type hcd_manager "hcd").

Definition sync_message (total_synced : nat) (errors : list string) : string :=
  let message :=
    "Successfully synced " ++ pretty total_synced ++ " users to DataStax HCD" in
  match errors with
  | [] => message
  | _ => message ++ ". " ++ pretty (length errors)
                 ++ " users skipped (likely duplicates)"
  end.

Definition sync_report (st : SyncState) : Report :=
  {[ "success" := RBool true;
     "message" := RStr (sync_message (total_synced st) (errors st));
     "synced_count" := RInt (total_synced st);
     "errors" := RStrs (take 5 (errors st)) ]}.

Definition failure_report (message : string) : Report :=
  {[ "success" := RBool false; "message" := RStr message ]}.

(** The body of the outer [try]; it returns the loop's locals, from which
    the report is built. *)
Definition sync_body (self : DatabaseManager) : M SyncState :=
  (* Use a cursor to process users in batches *)
  cursor <~ coll_find self ;;
  let st := {| batch := []; total_synced := 0; errors := [] |} in
  hcd_manager <~ temporary_hcd_manager ;;
  st <~ sync_loop hcd_manager cursor.1 st ;;
  match cursor.2 with Some e => raise e | None => ret tt end ;;;
  (* Process any remaining users in the last batch *)
  match batch st with
  | [] => ret st
  | _ => insert_batch hcd_manager st
  end.

Definition sync_mongodb_to_hcd (self : DatabaseManager) : M Report :=
  if negb (String.eqb (db_type self) "mongodb")
  then ret (failure_report "Sync only available from MongoDB")
  else
    try_except
      (st <~ sync_body self ;; ret (sync_report st))
      (λ e, ret (failure_report ("Sync failed: " ++ exn_str e))).

End Facade.

Arguments World : clear implicits.
Arguments M : clear implicits.

(** ** The migration, batch by batch

    What the migration is meant to do, stated over whole batches: the
    documents are cut into consecutive groups of [n], each group is submitted
    once, and a group counts as synced or as failed as a whole.  The loop of
    [sync_mongodb_to_hcd] is compared with this description below. *)

Fixpoint chunks_upto {A} (fuel n : nat) (l : list A) : list (list A) :=
  match fuel, l with
  | 0, _ | _, [] => []
  | S fuel, _ => take n l :: chunks_upto fuel n (drop n l)
  end.

(** Consecutive groups of [n] elements, the last one possibly shorter. *)
Definition chunks {A} (n : nat) (l : list A) : list (list A) :=
  chunks_upto (length l) n l.

(** The sizes of the groups [chunks n] cuts a list of [k] elements into. *)
Fixpoint sizes_upto (fuel n k : nat) : list nat :=
  match fuel, k with
  | 0, _ | _, 0 => []
  | S fuel, _ => Nat.min n k :: sizes_upto fuel n (k - n)
  end.

Section Batches.
Context {C : Type} `{!Collection C}.

(** A computation that leaves the three collections as they are. *)
Definition stores_kept {A} (m : M C A) : Prop :=
  ∀ w h, users_of h (m w).2 = users_of h w.

(** Submit each batch once, in order, to the collection behind [hd]; the
    answer to each batch is [None] when the bulk insert went through and the
    exception otherwise. *)
Fixpoint submit_batches (hd : Handle) (bs : list (list Dict)) (w : World C)
  : list (option exn) * World C :=
  match bs with
  | [] => ([], w)
  | b :: bs =>
      let w1 := record_call (InsertMany hd b) w in
      let '(r, c) := insert_many b (users_of hd w1) in
      let '(answers, w3) := submit_batches hd bs (set_users hd c w1) in
      (match r with Ok _ => None | Raise e => Some e end :: answers, w3)
  end.

End Batches.

(** Records of the batches whose bulk insert went through. *)
Fixpoint synced_of (bs : list (list Dict)) (answers : list (option exn)) : nat :=
  match bs, answers with
  | b :: bs, None :: answers => length b + synced_of bs answers
  | _ :: bs, Some _ :: answers => synced_of bs answers
  | _, _ => 0
  end.

(** One entry per record of every batch whose bulk insert raised. *)
Fixpoint errors_of (bs : list (list Dict)) (answers : list (option exn))
  : list string :=
  match bs, answers with
  | _ :: bs, None :: answers => errors_of bs answers
  | b :: bs, Some e :: answers => map (error_entry e) b ++ errors_of bs answers
  | _, _ => []
  end.

(** ** A reference collection

    The behaviour the drivers document for a collection with its unique
    index on [_id]: documents are kept in insertion order, a document
    inserted without [_id] is given a generated one, an insert whose [_id] is
    already present raises, an ordered bulk insert stops at the first
    document that raises (the ones before it stay inserted), [find_one]
    answers [None] when nothing matches and [delete_one] removes the first
    match and reports how many documents it removed. *)
Module Mem.

Record t := {
  docs : list Dict;
  next_oid : nat
}.

Definition empty : t := {| docs := []; next_oid := 0 |}.

Definition has_id (key : PyVal) (doc : Dict) : bool :=
  bool_decide (doc !! "_id" = Some key).

Definition object_id (n : nat) : PyVal :=
  VObj true ("ObjectId(" ++ pretty n ++ ")").

Definition duplicate_key : exn :=
  DriverError "E11000 duplicate key error collection: users".

Definition insert_one (doc : Dict) (c : t) : outcome unit * t :=
  let '(key, doc, oid) :=
    match doc !! "_id" with
    | Some key => (key, doc, next_oid c)
    | None => (object_id (next_oid c),
               <["_id" := object_id (next_oid c)]> doc, S (next_oid c))
    end in
  if existsb (has_id key) (docs c)
  then (Raise duplicate_key, {| docs := docs c; next_oid := oid |})
  else (Ok tt, {| docs := docs c ++ [doc]; next_oid := oid |}).

Fixpoint insert_each (documents : list Dict) (c : t) : outcome unit * t :=
  match documents with
  | [] => (Ok tt, c)
  | doc :: documents =>
      match insert_one doc c with
      | (Ok _, c) => insert_each documents c
      | (Raise _, c) => (Raise (DriverError "batch op errors occurred"), c)
      end
  end.

Definition insert_many (documents : list Dict) (c : t) : outcome unit * t :=
  match documents with
  | [] => (Raise (DriverError "documents must be a non-empty list"), c)
  | _ => insert_each documents c
  end.

Definition find (c : t) : outcome Cursor := Ok (docs c, None).

Definition find_one (key : PyVal) (c : t) : outcome (option Dict) :=
  Ok (List.find (has_id key) (docs c)).

Fixpoint remove_first (key : PyVal) (l : list Dict) : list Dict :=
  match l with
  | [] => []
  | doc :: l => if has_id key doc then l else doc :: remove_first key l
  end.

Definition delete_one (key : PyVal) (c : t) : outcome nat * t :=
  if existsb (has_id key) (docs c)
  then (Ok 1, {| docs := remove_first key (docs c); next_oid := next_oid c |})
  else (Ok 0, c).

(** Every document carries an [_id] and no two documents share one. *)
Definition unique_ids (c : t) : Prop :=
  NoDup (map (λ doc : Dict, doc !! "_id") (docs c))
  ∧ Forall (λ doc : Dict, is_Some (doc !! "_id")) (docs c).

(** [users] can all be inserted: each carries an [_id], no two of them
    share one and none of them is taken in [c]. *)
Definition no_collisions (users : list Dict) (c : t) : Prop :=
  Forall (λ doc : Dict, is_Some (doc !! "_id")) users
  ∧ NoDup (map (λ doc : Dict, doc !! "_id") users)
  ∧ ∀ doc d, doc ∈ users → d ∈ docs c → d !! "_id" ≠ doc !! "_id".

End Mem.

#[global] Instance Mem_Collection : Collection Mem.t := {|
  insert_one := Mem.insert_one;
  insert_many := Mem.insert_many;
  find := Mem.find;
  find_one := Mem.find_one;
  delete_one := Mem.delete_one
|}.

(** The world with the collection behind [h] emptied: nothing was ever
    inserted there. *)
Definition Mem_world_empty (h : Handle) (w : World Mem.t) : World Mem.t :=
  set_users h Mem.empty w.

(** ** Sample data *)
Module Sample.

Definition env : gmap string string :=
  {[ "DATABASE_TYPE" := "mongodb";
     "HCD_API_ENDPOINT" := "http://localhost:8181";
     "HCD_USERNAME" := "cassandra";
     "HCD_PASSWORD" := "cassandra" ]}.

Definition user (k : nat) : Dict :=
  {[ "_id" := VStr ("user-" ++ pretty k); "name" := VStr "Ada" ]}.

Definition users (n : nat) : list Dict := map user (seq 1 n).

Definition store (l : list Dict) : Mem.t :=
  {| Mem.docs := l; Mem.next_oid := 0 |}.

Definition uuids (n : nat) : string :=
  "3f2b8c1e-7a4d-4e0b-9c55-" ++ pretty (100000000000 + N.of_nat n)%N.

(** A process configured for MongoDB with HCD reachable and no service
    failing. *)
Definition world (e : gmap string string) (mongo hcd : list Dict)
  : World Mem.t :=
  {| environ := e; mongo_users := store mongo; hcd_users := store hcd;
     astra_users := Mem.empty; setup_fault := λ _, None;
     uuid_source := uuids; uuid_calls := 0; trace := [] |}.

Definition mongo_manager : DatabaseManager :=
  {| db_type := "mongodb"; collection := Some HMongo |}.

Definition hcd_manager : DatabaseManager :=
  {| db_type := "hcd"; collection := Some HHcd |}.

End Sample.

(** [name] occurs in [message]. *)
Definition mentions (name message : string) : bool :=
  match String.index 0 name message with
  | Some _ => true
  | None => false
  end.

(** ** What a computation is confined to

    The backend a connection call talks to, the calls a migration may make
    and a frame condition: a computation is [confined H P] when it leaves
    the environment, the fault behaviour of the services and the identifier
    source alone, changes no collection outside [H] and makes only calls
    that satisfy [P]. *)

Definition backend_of (c : SetupCall) : Handle :=
  match c with
  | MongoClient _ | MongoUsers _ => HMongo
  | HcdGetDatabase _ _ _ | HcdCreateKeyspace _ | HcdCreateCollection _
  | HcdGetCollection _ => HHcd
  | AstraDB _ _ _ _ | AstraCollection _ => HAstra
  end.

Definition setup_call_of (h : Handle) (c : Call) : Prop :=
  match c with
  | Setup s => backend_of s = h
  | _ => False
  end.

Definition migration_call (c : Call) : Prop :=
  match c with
  | Setup _ | Find _ | InsertMany HHcd _ => True
  | _ => False
  end.

(** The collection the selector stands for, if it is a supported one. *)
Definition handle_of_selector (t : string) : option Handle :=
  if String.eqb t "mongodb" then Some HMongo
  else if String.eqb t "hcd" then Some HHcd
  else if String.eqb t "astra" then Some HAstra
  else None.

(** The batches of [chunks n l] that hold [n] elements. *)
Definition full_batches {A} (n : nat) (l : list A) : list (list A) :=
  filter (λ b, length b = n) (chunks n l).

Section Confined.
Context {C : Type} `{!Collection C}.

Definition confined (H : Handle → Prop) (P : Call → Prop) {A} (m : M C A)
  : Prop :=
  ∀ w,
    environ (m w).2 = environ w
    ∧ setup_fault (m w).2 = setup_fault w
    ∧ uuid_source (m w).2 = uuid_source w
    ∧ uuid_calls (m w).2 = uuid_calls w
    ∧ (∀ h, ¬ H h → users_of h (m w).2 = users_of h w)
    ∧ ∃ calls, trace (m w).2 = (trace w ++ calls)%list ∧ Forall P calls.

End Confined.

(** ** A collection whose cursor can fail

    A reference collection read through a connection that may drop: the
    cursor yields the first [n] documents and then raises when
    [cursor_fault] is [Some (n, e)]. *)
Module Flaky.

Record t := {
  store : Mem.t;
  cursor_fault : option (nat * exn)
}.

Definition lift {A} (op : Mem.t → A * Mem.t) (c : t) : A * t :=
  let '(r, s) := op (store c) in
  (r, {| store := s; cursor_fault := cursor_fault c |}).

Definition find (c : t) : outcome Cursor :=
  match cursor_fault c with
  | None => Ok (Mem.docs (store c), None)
  | Some (n, e) => Ok (take n (Mem.docs (store c)), Some e)
  end.

End Flaky.

#[global] Instance Flaky_Collection : Collection Flaky.t := {|
  insert_one doc := Flaky.lift (Mem.insert_one doc);
  insert_many docs := Flaky.lift (Mem.insert_many docs);
  find := Flaky.find;
  find_one key c := Mem.find_one key (Flaky.store c);
  delete_one key := Flaky.lift (Mem.delete_one key)
|}.

(** ** Sample worlds with failing services *)
Module Failing.

(** HCD answers "already exists" to both creation calls. *)
Definition already_exists (c : SetupCall) : option string :=
  match c with
  | HcdCreateKeyspace _ | HcdCreateCollection _ => Some "already exists"
  | _ => None
  end.

Definition hcd_exists_world : World Mem.t :=
  {| environ := Sample.env; mongo_users := Mem.empty; hcd_users := Mem.empty;
     astra_users := Mem.empty; setup_fault := already_exists;
     uuid_source := Sample.uuids; uuid_calls := 0; trace := [] |}.

Definition steady (l : list Dict) : Flaky.t :=
  {| Flaky.store := Sample.store l; Flaky.cursor_fault := None |}.

(** MongoDB holds 250 records and drops the connection after 230. *)
Definition dropping_world : World Flaky.t :=
  {| environ := Sample.env;
     mongo_users :=
       {| Flaky.store := Sample.store (Sample.users 250);
          Flaky.cursor_fault := Some (230, DriverError "connection reset") |};
     hcd_users := steady []; astra_users := steady [];
     setup_fault := λ _, None; uuid_source := Sample.uuids; uuid_calls := 0;
     trace := [] |}.

End Failing.

(** * Properties *)

Local Open Scope list_scope.
Local Open Scope nat_scope.

Section FacadeProperties.
Context {C : Type} `{!Collection C}.
Implicit Types (w : World C) (self : DatabaseManager).

(** ** Reading the world after a call *)

Lemma users_of_record_call h c w : users_of h (record_call c w) = users_of h w.
Proof. by destruct h. Qed.

Lemma users_of_set_users h c w : users_of h (set_users h c w) = c.
Proof. by destruct h. Qed.

Lemma users_of_set_users_ne h h' c w :
  h ≠ h' → users_of h' (set_users h c w) = users_of h' w.
Proof. by destruct h, h'. Qed.

Lemma trace_set_users h c w : trace (set_users h c w) = trace w.
Proof. by destruct h. Qed.

Lemma uuid_source_set_users h c w :
  uuid_source (set_users h c w) = uuid_source w.
Proof. by destruct h. Qed.

Lemma uuid_calls_set_users h c w :
  uuid_calls (set_users h c w) = uuid_calls w.
Proof. by destruct h. Qed.

Lemma coll_insert_one_eq self h doc w :
  collection self = Some h →
  coll_insert_one self doc w
  = ((insert_one doc (users_of h w)).1,
     set_users h (insert_one doc (users_of h w)).2
       (record_call (InsertOne h doc) w)).
Proof.
  intros Hc. unfold coll_insert_one. rewrite Hc, users_of_record_call.
  by destruct (insert_one doc (users_of h w)).
Qed.

Lemma coll_delete_one_eq self h key w :
  collection self = Some h →
  coll_delete_one self key w
  = ((delete_one key (users_of h w)).1,
     set_users h (delete_one key (users_of h w)).2
       (record_call (DeleteOne h key) w)).
Proof.
  intros Hc. unfold coll_delete_one. rewrite Hc, users_of_record_call.
  by destruct (delete_one key (users_of h w)).
Qed.

Lemma coll_find_one_eq self h key w :
  collection self = Some h →
  coll_find_one self key w
  = (find_one key (users_of h w), record_call (FindOne h key) w).
Proof.
  intros Hc. unfold coll_find_one. by rewrite Hc, users_of_record_call.
Qed.

(** [create_user] on a bound facade, in one equation. *)
Lemma create_user_eq self h user_data w :
  collection self = Some h →
  create_user self user_data w
  = let stored :=
      if lacks_id user_data
      then <["_id" := VStr (uuid_source w (uuid_calls w))]> user_data
      else user_data in
    let w0 := if lacks_id user_data then (uuid4_str w).2 else w in
    (stored,
     match (insert_one stored (users_of h w)).1 with
     | Ok _ => Ok stored
     | Raise e => Raise e
     end,
     set_users h (insert_one stored (users_of h w)).2
       (record_call (InsertOne h stored) w0)).
Proof.
  intros Hc. unfold create_user.
  destruct (lacks_id user_data); cbn [uuid4_str fst snd];
    rewrite (coll_insert_one_eq _ h) by done; cbn zeta;
    destruct h; cbn [users_of mongo_users hcd_users astra_users];
    by destruct (insert_one _ _) as [[[]|e] c].
Qed.

(** ** Construction *)

Lemma setup_connection_unsupported self w :
  db_type self ≠ "mongodb" → db_type self ≠ "hcd" → db_type self ≠ "astra" →
  _setup_connection self w
  = (Raise (ValueError ("Unsupported database type: " +:+ db_type self)), w).
Proof.
  intros Hm Hh Ha. unfold _setup_connection.
  apply String.eqb_neq in Hm, Hh, Ha. by rewrite Hm, Hh, Ha.
Qed.

Lemma setup_hcd_incomplete self w :
  configured (environ w !! "HCD_API_ENDPOINT")
  && configured (environ w !! "HCD_USERNAME")
  && configured (environ w !! "HCD_PASSWORD") = false →
  _setup_hcd self w = (Raise (ValueError hcd_incomplete), w).
Proof.
  intros Hcfg. unfold _setup_hcd, bind, getenv, getenv_default.
  by rewrite Hcfg.
Qed.

Lemma setup_astra_incomplete self w :
  configured (environ w !! "ASTRA_DB_ID")
  && configured (environ w !! "ASTRA_DB_REGION")
  && configured (environ w !! "ASTRA_DB_TOKEN") = false →
  _setup_astra self w = (Raise (ValueError astra_incomplete), w).
Proof.
  intros Hcfg. unfold _setup_astra, bind, getenv, getenv_default.
  by rewrite Hcfg.
Qed.

(** A setup of HCD that returns has bound the facade to the HCD collection
    and kept its selector. *)
Lemma setup_hcd_ok self w hm w' :
  _setup_hcd self w = (Ok hm, w') → hm = with_collection self HHcd.
Proof.
  unfold _setup_hcd, bind, getenv, getenv_default, try_except, sdk, ret, raise.
  destruct (negb _); [done|].
  destruct (setup_fault w _); [done|]. cbn.
  destruct (setup_fault w _); cbn;
    (destruct (setup_fault w _); cbn; [|congruence]);
    (destruct (setup_fault w _); cbn; congruence).
Qed.

Lemma temporary_hcd_manager_ok w hm w' :
  temporary_hcd_manager w = (Ok hm, w') →
  collection hm = Some HHcd ∧ db_type hm = "hcd".
Proof.
  unfold temporary_hcd_manager, bind.
  destruct (__init__ w) as [[m|e] w1]; [|done].
  intros ->%setup_hcd_ok. done.
Qed.

(** ** The shape of the migration report *)

Lemma failure_report_fields message :
  failure_report message !! "success" = Some (RBool false)
  ∧ failure_report message !! "message" = Some (RStr message)
  ∧ failure_report message !! "synced_count" = None
  ∧ failure_report message !! "errors" = None.
Proof. done. Qed.

Lemma sync_report_fields st :
  sync_report st !! "success" = Some (RBool true)
  ∧ sync_report st !! "message"
    = Some (RStr (sync_message (total_synced st) (errors st)))
  ∧ sync_report st !! "synced_count" = Some (RInt (total_synced st))
  ∧ sync_report st !! "errors" = Some (RStrs (take 5 (errors st))).
Proof. done. Qed.

Lemma sync_wrong_backend self w :
  db_type self ≠ "mongodb" →
  sync_mongodb_to_hcd self w
  = (Ok (failure_report "Sync only available from MongoDB"), w).
Proof.
  intros Hne%String.eqb_neq. unfold sync_mongodb_to_hcd. by rewrite Hne.
Qed.

Lemma sync_from_mongodb self w :
  db_type self = "mongodb" →
  sync_mongodb_to_hcd self w
  = match sync_body self w with
    | (Ok st, w') => (Ok (sync_report st), w')
    | (Raise e, w') => (Ok (failure_report ("Sync failed: " +:+ exn_str e)), w')
    end.
Proof.
  intros Heq. unfold sync_mongodb_to_hcd, try_except, bind, ret.
  rewrite Heq. simpl. by destruct (sync_body self w) as [[st|e] w'].
Qed.

(** ** Cutting a list into batches *)

Lemma chunks_upto_enough {A} n (l : list A) f1 f2 :
  0 < n → length l ≤ f1 → length l ≤ f2 →
  chunks_upto f1 n l = chunks_upto f2 n l.
Proof.
  intros Hn. revert l f2. induction f1 as [|f1 IH]; intros l f2 H1 H2.
  - destruct l; [|simpl in H1; lia]. by destruct f2.
  - destruct l as [|x l]; [by destruct f2|].
    destruct f2 as [|f2]; [simpl in H2; lia|].
    cbn [chunks_upto]. f_equal.
    apply IH; rewrite length_drop; simpl in *; lia.
Qed.

Lemma chunks_nil {A} n : chunks n (@nil A) = [].
Proof. done. Qed.

Lemma chunks_step {A} n (l : list A) :
  0 < n → l ≠ [] → chunks n l = take n l :: chunks n (drop n l).
Proof.
  intros Hn Hl. unfold chunks. destruct l as [|x l]; [done|].
  cbn [length chunks_upto]. f_equal.
  apply chunks_upto_enough; [done| |done].
  rewrite length_drop. simpl. lia.
Qed.

Lemma chunks_short {A} n (l : list A) :
  l ≠ [] → length l ≤ n → chunks n l = [l].
Proof.
  intros Hl Hlen. rewrite chunks_step; [|destruct l; simpl in *; [done|lia]|done].
  rewrite take_ge, drop_ge by lia. done.
Qed.

Lemma chunks_full {A} n (b l : list A) :
  0 < n → length b = n → chunks n (b ++ l) = b :: chunks n l.
Proof.
  intros Hn Hb. rewrite chunks_step; [|done|destruct b; simpl in *; [lia|done]].
  rewrite take_app_length', drop_app_length' by done. done.
Qed.

(** Induction over a list one full batch at a time. *)
Lemma batches_ind {A} n (P : list A → Prop) :
  0 < n →
  (∀ l, length l < n → P l) →
  (∀ b l, length b = n → P l → P (b ++ l)) →
  ∀ l, P l.
Proof.
  intros Hn Hshort Hfull l.
  remember (length l) as k eqn:Hk. revert l Hk.
  induction k as [k IH] using lt_wf_ind. intros l ->.
  destruct (decide (length l < n)) as [Hlt|Hge]; [by apply Hshort|].
  rewrite <- (take_drop n l). apply Hfull.
  - rewrite length_take. lia.
  - eapply IH; [|done]. rewrite length_drop. lia.
Qed.

Lemma chunks_concat {A} n (l : list A) : 0 < n → concat (chunks n l) = l.
Proof.
  intros Hn. revert l.
  apply (batches_ind n); [done|intros l Hl|intros b l Hb IH].
  - destruct l; [done|]. rewrite chunks_short; [|done|lia]. apply app_nil_r.
  - rewrite chunks_full by done. simpl. by rewrite IH.
Qed.

(** Every batch is non-empty and holds at most [n] records; every batch but
    the last holds exactly [n]. *)
Lemma chunks_sizes {A} n (l : list A) :
  0 < n →
  Forall (λ b, 0 < length b ≤ n) (chunks n l)
  ∧ ∀ i b, chunks n l !! i = Some b → S i < length (chunks n l) → length b = n.
Proof.
  intros Hn. revert l.
  apply (batches_ind n); [done|intros l Hl|intros b l Hb IH].
  - destruct l as [|x l]; [by split; [constructor|intros ??[=]]|].
    rewrite chunks_short; [|done|lia]. split.
    + apply Forall_singleton. simpl in *. lia.
    + intros [|i] b'; simpl; [lia|done].
  - rewrite chunks_full by done. destruct IH as [IH1 IH2]. split.
    + constructor; [lia|done].
    + intros [|i] b'; simpl; [by intros [= <-]|].
      intros Hi Hlen. apply (IH2 i); [done|lia].
Qed.

Lemma chunks_upto_lengths {A} fuel n (l : list A) :
  map length (chunks_upto fuel n l) = sizes_upto fuel n (length l).
Proof.
  revert l. induction fuel as [|fuel IH]; intros l; [done|].
  destruct l as [|x l]; [done|].
  cbn [chunks_upto sizes_upto length map]. f_equal.
  - by rewrite length_take.
  - by rewrite IH, length_drop.
Qed.

Lemma chunks_lengths {A} n (l : list A) :
  map length (chunks n l) = sizes_upto (length l) n (length l).
Proof. apply chunks_upto_lengths. Qed.

(** ** The loop, batch by batch *)

Lemma insert_batch_eq hm hd st w :
  collection hm = Some hd →
  insert_batch hm st w
  = let w1 := record_call (InsertMany hd (batch st)) w in
    match insert_many (batch st) (users_of hd w1) with
    | (Ok _, c) =>
        (Ok {| batch := batch st;
               total_synced := total_synced st + length (batch st);
               errors := errors st |}, set_users hd c w1)
    | (Raise e, c) =>
        (Ok {| batch := batch st; total_synced := total_synced st;
               errors := errors st ++ map (error_entry e) (batch st) |},
         set_users hd c w1)
    end.
Proof.
  intros Hc. unfold insert_batch, try_except, bind, coll_insert_many, ret.
  rewrite Hc. simpl.
  by destruct (insert_many _ _) as [[[]|e] c].
Qed.

(** A run of the loop that does not fill the batch only grows it. *)
Lemma sync_loop_acc hm pre rest b tot errs w :
  length b + length pre < batch_size →
  sync_loop hm (pre ++ rest)
    {| batch := b; total_synced := tot; errors := errs |} w
  = sync_loop hm rest
      {| batch := b ++ pre; total_synced := tot; errors := errs |} w.
Proof.
  revert b. induction pre as [|u pre IH]; intros b Hlen.
  - by rewrite app_nil_r.
  - cbn [app sync_loop]. unfold append_user. cbn [batch total_synced errors].
    replace (length (b ++ [u]) =? batch_size) with false.
    + rewrite IH; [by rewrite <- app_assoc|].
      rewrite length_app. simpl in *. lia.
    + symmetry. apply Nat.eqb_neq. rewrite length_app. simpl in *. lia.
Qed.

(** The loop never raises: every bulk insert sits in its own [try]. *)
Lemma sync_loop_returns hm cursor st w :
  ∃ st' w', sync_loop hm cursor st w = (Ok st', w').
Proof.
  revert st w. induction cursor as [|u cursor IH]; intros st w; [by eexists _, _|].
  cbn [sync_loop]. destruct (_ =? _); [|apply IH].
  unfold bind at 1.
  assert (∃ st1 w1, insert_batch hm (append_user u st) w = (Ok st1, w1))
    as (st1 & w1 & ->); [|apply IH].
  unfold insert_batch, try_except, bind, ret.
  destruct (coll_insert_many _ _ _) as [[[]|e] w1]; by eexists _, _.
Qed.

Lemma insert_batch_returns hm st w :
  ∃ st' w', insert_batch hm st w = (Ok st', w').
Proof.
  unfold insert_batch, try_except, bind, ret.
  destruct (coll_insert_many _ _ _) as [[[]|e] w1]; by eexists _, _.
Qed.

(** The loop followed by the flush of the last batch submits the batches of
    [chunks batch_size users] one after another, each exactly once. *)
Lemma drain_batches hm hd users :
  collection hm = Some hd →
  ∀ tot errs w,
  ∃ st',
    bind (sync_loop hm users {| batch := []; total_synced := tot; errors := errs |})
         (λ st1, match batch st1 with
                 | [] => ret st1
                 | _ => insert_batch hm st1
                 end) w
    = (Ok st', (submit_batches hd (chunks batch_size users) w).2)
    ∧ total_synced st'
      = tot + synced_of (chunks batch_size users)
                        (submit_batches hd (chunks batch_size users) w).1
    ∧ errors st'
      = errs ++ errors_of (chunks batch_size users)
                          (submit_batches hd (chunks batch_size users) w).1.
Proof.
  intros Hc. pattern users. revert users.
  apply (batches_ind (A:=Dict) batch_size);
    [unfold batch_size; lia|intros l Hl|intros b l Hb IH];
    intros tot errs w.
  - destruct l as [|x l].
    { rewrite chunks_nil. eexists. split; [reflexivity|].
      cbn [submit_batches fst synced_of errors_of total_synced errors].
      split; [lia|by rewrite app_nil_r]. }
    rewrite chunks_short; [|done|lia].
    pose proof (sync_loop_acc hm (x :: l) [] [] tot errs w) as Hacc.
    rewrite app_nil_r in Hacc.
    unfold bind. rewrite Hacc by (simpl in *; lia).
    cbn [sync_loop ret app batch]. rewrite insert_batch_eq with (hd := hd) by done.
    cbn [submit_batches batch total_synced errors].
    destruct (insert_many _ _) as [[[]|e] c]; eexists; (split; [done|]);
      cbn [fst snd synced_of errors_of total_synced errors];
      rewrite ?app_nil_r; split; (done || lia).
  - rewrite chunks_full by (done || unfold batch_size; lia).
    destruct (nil_or_length_pos b) as [->|Hpos]; [done|].
    destruct b as [|x b _] using rev_ind; [simpl in Hpos; lia|].
    rewrite length_app in Hb. simpl in Hb.
    unfold bind at 1. rewrite <- !app_assoc.
    rewrite sync_loop_acc by (simpl; lia).
    cbn [app sync_loop]. unfold append_user. cbn [batch total_synced errors].
    replace (length (b ++ [x]) =? batch_size) with true
      by (symmetry; apply Nat.eqb_eq; rewrite length_app; simpl; lia).
    unfold bind at 1. rewrite insert_batch_eq with (hd := hd) by done.
    cbn [submit_batches batch total_synced errors clear_batch].
    destruct (insert_many _ _) as [[[]|e] c]; cbn [clear_batch total_synced errors].
    + destruct (IH (tot + length (b ++ [x])) errs
                  (set_users hd c (record_call (InsertMany hd (b ++ [x])) w)))
        as (st' & Hrun & Htot & Herrs).
      unfold bind in Hrun. exists st'.
      destruct (submit_batches hd (chunks batch_size l) _) as [answers w3].
      cbn [fst snd synced_of errors_of] in *.
      split; [done|]. split; [lia|done].
    + destruct (IH tot (errs ++ map (error_entry e) (b ++ [x]))
                  (set_users hd c (record_call (InsertMany hd (b ++ [x])) w)))
        as (st' & Hrun & Htot & Herrs).
      unfold bind in Hrun. exists st'.
      destruct (submit_batches hd (chunks batch_size l) _) as [answers w3].
      cbn [fst snd synced_of errors_of] in *.
      split; [done|]. split; [done|]. by rewrite Herrs, app_assoc.
Qed.

Lemma submit_batches_trace hd bs w :
  trace (submit_batches hd bs w).2 = trace w ++ map (InsertMany hd) bs.
Proof.
  revert w. induction bs as [|b bs IH]; intros w; [by rewrite app_nil_r|].
  cbn [submit_batches map].
  destruct (insert_many _ _) as [r c].
  specialize (IH (set_users hd c (record_call (InsertMany hd b) w))).
  destruct (submit_batches hd bs _) as [answers w3]. cbn [snd] in *.
  rewrite IH. destruct hd; cbn; by rewrite <- app_assoc.
Qed.

Lemma submit_batches_answers hd bs w :
  length (submit_batches hd bs w).1 = length bs.
Proof.
  revert w. induction bs as [|b bs IH]; intros w; [done|].
  cbn [submit_batches].
  destruct (insert_many _ _) as [r c].
  specialize (IH (set_users hd c (record_call (InsertMany hd b) w))).
  destruct (submit_batches hd bs _) as [answers w3]. cbn in *. by rewrite IH.
Qed.

(** Every record of every batch is either synced or has an error entry. *)
Lemma batches_accounted bs answers :
  length answers = length bs →
  synced_of bs answers + length (errors_of bs answers) = length (concat bs).
Proof.
  revert answers. induction bs as [|b bs IH]; intros [|[e|] answers] Hlen;
    try done; cbn [synced_of errors_of concat];
    rewrite !length_app, ?length_map; injection Hlen as Hlen;
    specialize (IH _ Hlen); lia.
Qed.

Lemma errors_of_elem bs answers i b e doc :
  bs !! i = Some b → answers !! i = Some (Some e) → doc ∈ b →
  error_entry e doc ∈ errors_of bs answers.
Proof.
  revert answers i. induction bs as [|b' bs IH]; intros [|a answers] [|i];
    try done; cbn [errors_of]; simpl.
  - intros [= ->] [= ->] Hdoc. apply elem_of_app. left.
    by apply list_elem_of_fmap_2.
  - intros Hb He Hdoc. destruct a; [apply elem_of_app; right|]; by eapply IH.
Qed.

(** ** Runs of the migration that reach the loop *)

Lemma sync_body_run self w users w1 hm w2 :
  coll_find self w = (Ok (users, None), w1) →
  temporary_hcd_manager w1 = (Ok hm, w2) →
  sync_body self w
  = bind (sync_loop hm users {| batch := []; total_synced := 0; errors := [] |})
         (λ st1, match batch st1 with
                 | [] => ret st1
                 | _ => insert_batch hm st1
                 end) w2.
Proof.
  intros Hfind Hsetup. unfold sync_body, bind at 1. rewrite Hfind.
  unfold bind at 1. rewrite Hsetup. cbn [fst snd].
  unfold bind.
  destruct (sync_loop_returns hm users
              {| batch := []; total_synced := 0; errors := [] |} w2)
    as (st1 & w3 & ->).
  done.
Qed.

Lemma sync_body_ok self w st w' :
  sync_body self w = (Ok st, w') →
  ∃ users w1 hm w2,
    coll_find self w = (Ok (users, None), w1)
    ∧ temporary_hcd_manager w1 = (Ok hm, w2).
Proof.
  unfold sync_body, bind at 1.
  destruct (coll_find self w) as [[[users stop]|e] w1] eqn:Hfind; [|done].
  unfold bind at 1.
  destruct (temporary_hcd_manager w1) as [[hm|e] w2] eqn:Hsetup; [|done].
  unfold bind at 1. cbn [fst snd].
  destruct (sync_loop_returns hm users
              {| batch := []; total_synced := 0; errors := [] |} w2)
    as (st1 & w3 & ->).
  destruct stop as [e|]; [done|]. intros _. by eexists _, _, _, _.
Qed.

(** A run whose cursor is read to the end and whose destination was set up:
    the locals at the end, the world at the end. *)
Lemma sync_body_batches self w users w1 hm w2 :
  coll_find self w = (Ok (users, None), w1) →
  temporary_hcd_manager w1 = (Ok hm, w2) →
  ∃ st,
    sync_body self w
    = (Ok st, (submit_batches HHcd (chunks batch_size users) w2).2)
    ∧ total_synced st
      = synced_of (chunks batch_size users)
                  (submit_batches HHcd (chunks batch_size users) w2).1
    ∧ errors st
      = errors_of (chunks batch_size users)
                  (submit_batches HHcd (chunks batch_size users) w2).1.
Proof.
  intros Hfind Hsetup.
  rewrite (sync_body_run _ _ _ _ _ _ Hfind Hsetup).
  destruct (temporary_hcd_manager_ok _ _ _ Hsetup) as [Hc _].
  destruct (drain_batches hm HHcd users Hc 0 [] w2) as (st & Hrun & Htot & Herrs).
  exists st. by rewrite Hrun, Htot, Herrs.
Qed.

(** ** The claims about construction and migration *)

(** C9.  Construction with a selector other than the three supported ones
    raises a [ValueError] naming the selector and leaves the world exactly
    as it was: no SDK call is made and nothing is connected.  Construction
    (and a direct call of the setup procedure) for the HCD backend or the
    Astra backend with one of the three mandatory settings unset or empty
    raises the "configuration incomplete" [ValueError] before any SDK call is
    made; the message names the three mandatory settings, hence the missing
    ones. *)
Theorem construction_fails_fast w :
  let selector := default "mongodb" (environ w !! "DATABASE_TYPE") in
  let hcd_missing :=
    configured (environ w !! "HCD_API_ENDPOINT") = false
    ∨ configured (environ w !! "HCD_USERNAME") = false
    ∨ configured (environ w !! "HCD_PASSWORD") = false in
  let astra_missing :=
    configured (environ w !! "ASTRA_DB_ID") = false
    ∨ configured (environ w !! "ASTRA_DB_REGION") = false
    ∨ configured (environ w !! "ASTRA_DB_TOKEN") = false in
  (selector ≠ "mongodb" → selector ≠ "hcd" → selector ≠ "astra" →
     __init__ w
     = (Raise (ValueError ("Unsupported database type: " +:+ selector)), w))
  ∧ (hcd_missing →
       (selector = "hcd" → __init__ w = (Raise (ValueError hcd_incomplete), w))
       ∧ ∀ self, _setup_hcd self w = (Raise (ValueError hcd_incomplete), w))
  ∧ (astra_missing →
       (selector = "astra" →
          __init__ w = (Raise (ValueError astra_incomplete), w))
       ∧ ∀ self, _setup_astra self w = (Raise (ValueError astra_incomplete), w))
  ∧ configured None = false
  ∧ mentions "HCD_API_ENDPOINT" hcd_incomplete
    && mentions "HCD_USERNAME" hcd_incomplete
    && mentions "HCD_PASSWORD" hcd_incomplete = true
  ∧ mentions "ASTRA_DB_ID" astra_incomplete
    && mentions "ASTRA_DB_REGION" astra_incomplete
    && mentions "ASTRA_DB_TOKEN" astra_incomplete = true.
Proof.
  intros selector hcd_missing astra_missing.
  assert (__init__ w
          = _setup_connection {| db_type := selector; collection := None |} w)
    as Hinit by done.
  assert (hcd_missing →
          configured (environ w !! "HCD_API_ENDPOINT")
          && configured (environ w !! "HCD_USERNAME")
          && configured (environ w !! "HCD_PASSWORD") = false) as Hhcd.
  { intros [-> | [-> | ->]]; [done|by rewrite andb_false_r..]. }
  assert (astra_missing →
          configured (environ w !! "ASTRA_DB_ID")
          && configured (environ w !! "ASTRA_DB_REGION")
          && configured (environ w !! "ASTRA_DB_TOKEN") = false) as Hastra.
  { intros [-> | [-> | ->]]; [done|by rewrite andb_false_r..]. }
  repeat split; try done.
  - intros Hm Hh Ha. rewrite Hinit. by apply setup_connection_unsupported.
  - intros Hsel. rewrite Hinit. unfold _setup_connection. cbn [db_type].
    rewrite Hsel. cbn. by apply setup_hcd_incomplete, Hhcd.
  - intros self. by apply setup_hcd_incomplete, Hhcd.
  - intros Hsel. rewrite Hinit. unfold _setup_connection. cbn [db_type].
    rewrite Hsel. cbn. by apply setup_astra_incomplete, Hastra.
  - intros self. by apply setup_astra_incomplete, Hastra.
Qed.

(** C1, as amended.  On a facade whose selector is not ["mongodb"] the
    migration returns at once the report [{"success": False, "message":
    "Sync only available from MongoDB"}], which has no ["synced_count"] and
    no ["errors"] entry, and the world is exactly as before: no SDK call was
    made, so nothing was read from the source or written to the
    destination. *)
Theorem migrate_wrong_backend_refused self w :
  db_type self ≠ "mongodb" →
  ∃ report,
    sync_mongodb_to_hcd self w = (Ok report, w)
    ∧ report !! "success" = Some (RBool false)
    ∧ report !! "message" = Some (RStr "Sync only available from MongoDB")
    ∧ report !! "synced_count" = None
    ∧ report !! "errors" = None.
Proof.
  intros Hne. eexists. split; [by apply sync_wrong_backend|].
  apply failure_report_fields.
Qed.

(** C2, as amended.  The migration always returns a report and never
    raises.  Every report has a ["success"] flag and a ["message"] string.
    The flag is true exactly when the selector is ["mongodb"] and the body of
    the outer [try] ran to its end; such a report also has an integer
    ["synced_count"] and an ["errors"] list of at most 5 entries.  A report
    whose flag is false has neither of the two: it holds "Sync only
    available from MongoDB" for another selector and "Sync failed: " followed
    by the exception text when an exception escaped the body. *)
Theorem migrate_always_reports self w :
  ∃ report w' success message,
    sync_mongodb_to_hcd self w = (Ok report, w')
    ∧ report !! "success" = Some (RBool success)
    ∧ report !! "message" = Some (RStr message)
    ∧ (success = true ↔
         db_type self = "mongodb" ∧ ∃ st w1, sync_body self w = (Ok st, w1))
    ∧ (success = true →
         ∃ n errs, report !! "synced_count" = Some (RInt n)
                   ∧ report !! "errors" = Some (RStrs errs)
                   ∧ length errs ≤ 5)
    ∧ (success = false →
         report !! "synced_count" = None ∧ report !! "errors" = None)
    ∧ (db_type self ≠ "mongodb" →
         message = "Sync only available from MongoDB" ∧ w' = w)
    ∧ (∀ e w1, db_type self = "mongodb" → sync_body self w = (Raise e, w1) →
         message = "Sync failed: " +:+ exn_str e).
Proof.
  destruct (decide (db_type self = "mongodb")) as [Heq|Hne].
  - rewrite (sync_from_mongodb _ _ Heq).
    destruct (sync_body self w) as [[st|e] w1].
    + exists (sync_report st), w1, true, (sync_message (total_synced st) (errors st)).
      repeat split; try done.
      * by eexists _, _.
      * intros _. eexists _, _. repeat split. rewrite length_take. lia.
    + exists (failure_report ("Sync failed: " +:+ exn_str e)), w1, false,
        ("Sync failed: " +:+ exn_str e).
      repeat split; try done.
      * by intros [_ (? & ? & ?)].
      * by intros e' w1' _ [= -> _].
  - rewrite (sync_wrong_backend _ _ Hne).
    exists (failure_report "Sync only available from MongoDB"), w, false,
      "Sync only available from MongoDB".
    repeat split; try done. by intros [? _].
Qed.

(** C4.  Take a run from a ["mongodb"] facade whose cursor yields [users]
    to the end and whose temporary HCD manager was set up.  The records are
    submitted in the batches of [chunks batch_size users], each batch in one
    [insert_many] call and no other call is made, so nothing is retried.
    When the call for a batch raises [e], every record of that batch has the
    entry [error_entry e] among the accumulated errors, which for a string
    key reads "User <key>: <text of e>", and the batch adds nothing to the
    synced count: the count is the number of records of the batches whose
    call went through.  The report carries the first 5 accumulated entries
    and its success flag is true. *)
Theorem migrate_failed_batch_skipped_whole self w users w1 hm w2 :
  db_type self = "mongodb" →
  coll_find self w = (Ok (users, None), w1) →
  temporary_hcd_manager w1 = (Ok hm, w2) →
  let bs := chunks batch_size users in
  let answers := (submit_batches HHcd bs w2).1 in
  let w3 := (submit_batches HHcd bs w2).2 in
  ∃ st,
    sync_body self w = (Ok st, w3)
    ∧ sync_mongodb_to_hcd self w = (Ok (sync_report st), w3)
    ∧ (∀ i b e doc,
         bs !! i = Some b → answers !! i = Some (Some e) → doc ∈ b →
         error_entry e doc ∈ errors st)
    ∧ (∀ e doc key,
         doc !! "_id" = Some (VStr key) →
         error_entry e doc = "User " +:+ key +:+ ": " +:+ exn_str e)
    ∧ errors st = errors_of bs answers
    ∧ total_synced st = synced_of bs answers
    ∧ trace w3 = trace w2 ++ map (InsertMany HHcd) bs
    ∧ sync_report st !! "success" = Some (RBool true)
    ∧ sync_report st !! "synced_count" = Some (RInt (synced_of bs answers))
    ∧ sync_report st !! "errors" = Some (RStrs (take 5 (errors_of bs answers))).
Proof.
  intros Hdb Hfind Hsetup bs answers w3.
  destruct (sync_body_batches _ _ _ _ _ _ Hfind Hsetup) as (st & Hbody & Htot & Herrs).
  fold bs in Hbody, Htot, Herrs. fold answers in Htot, Herrs. fold w3 in Hbody.
  exists st. split; [done|].
  split; [by rewrite (sync_from_mongodb _ _ Hdb), Hbody|].
  split; [intros i b e doc Hb He Hdoc; rewrite Herrs; by eapply errors_of_elem|].
  split; [by intros e doc key Hkey; unfold error_entry; rewrite Hkey|].
  split; [done|]. split; [done|].
  split; [apply submit_batches_trace|].
  destruct (sync_report_fields st) as (Hs & _ & Hn & He).
  by rewrite Hs, Hn, He, Htot, Herrs.
Qed.

(** C10.  Whenever the body of the migration runs to its end on a
    ["mongodb"] facade, the cursor was read to the end and the number of
    records it yielded is the synced count plus the number of accumulated
    error entries.  The report is built from these locals: it lists only the
    first 5 entries, while its message gives the count of all of them. *)
Theorem migrate_accounts_for_every_record self w st w' :
  db_type self = "mongodb" →
  sync_body self w = (Ok st, w') →
  ∃ users w1,
    coll_find self w = (Ok (users, None), w1)
    ∧ length users = total_synced st + length (errors st)
    ∧ sync_mongodb_to_hcd self w = (Ok (sync_report st), w')
    ∧ sync_report st !! "synced_count" = Some (RInt (total_synced st))
    ∧ sync_report st !! "errors" = Some (RStrs (take 5 (errors st)))
    ∧ sync_report st !! "message"
      = Some (RStr
          (let skipped := length users - total_synced st in
           let message :=
             "Successfully synced " +:+ pretty (total_synced st)
               +:+ " users to DataStax HCD" in
           if decide (skipped = 0) then message
           else message +:+ ". " +:+ pretty skipped
                  +:+ " users skipped (likely duplicates)")).
Proof.
  intros Hdb Hbody.
  destruct (sync_body_ok _ _ _ _ Hbody) as (users & w1 & hm & w2 & Hfind & Hsetup).
  destruct (sync_body_batches _ _ _ _ _ _ Hfind Hsetup) as (st' & Hbody' & Htot & Herrs).
  rewrite Hbody in Hbody'. injection Hbody' as <- Hw.
  assert (length users = total_synced st + length (errors st)) as Hlen.
  { rewrite Htot, Herrs, batches_accounted by apply submit_batches_answers.
    rewrite chunks_concat; [done|unfold batch_size; lia]. }
  exists users, w1. split; [done|]. split; [done|].
  split; [by rewrite (sync_from_mongodb _ _ Hdb), Hbody|].
  destruct (sync_report_fields st) as (_ & Hm & Hn & He).
  split; [done|]. split; [done|].
  rewrite Hm. do 2 f_equal. cbn zeta.
  replace (length users - total_synced st) with (length (errors st)) by lia.
  unfold sync_message. destruct (errors st) as [|entry entries]; [done|].
  by destruct (decide _).
Qed.

(** C6.  On a bound facade, [create_user] on a record whose [_id] is absent
    or falsy draws one identifier from [uuid.uuid4()] and sets it, as a
    string, under [_id]; a record with a truthy [_id] is left as it is.
    Either way the caller's dict afterwards carries an [_id], agrees with
    the input on every other field, is the one document handed to the one
    [insert_one] call the operation makes, and is what the operation returns
    when that call does not raise.  The bound collection afterwards is the
    collection that this [insert_one] leaves, and the other collections are
    as before.  With an identifier source that never repeats itself, a second
    insert without key made afterwards gets a key different from the first,
    and is again one [insert_one] on the bound collection. *)
Theorem create_user_assigns_fresh_key self h user_data w :
  collection self = Some h →
  (∀ i j, uuid_source w i = uuid_source w j → i = j) →
  ∃ stored result w',
    create_user self user_data w = (stored, result, w')
    ∧ stored
      = (if lacks_id user_data
         then <["_id" := VStr (uuid_source w (uuid_calls w))]> user_data
         else user_data)
    ∧ is_Some (stored !! "_id")
    ∧ (∀ field, field ≠ "_id" → stored !! field = user_data !! field)
    ∧ trace w' = trace w ++ [InsertOne h stored]
    ∧ users_of h w' = (insert_one stored (users_of h w)).2
    ∧ (∀ h', h' ≠ h → users_of h' w' = users_of h' w)
    ∧ result
      = match (insert_one stored (users_of h w)).1 with
        | Ok _ => Ok stored
        | Raise e => Raise e
        end
    ∧ (lacks_id user_data = true →
       ∀ second, lacks_id second = true →
       ∃ stored2 result2 w'',
         create_user self second w' = (stored2, result2, w'')
         ∧ stored2 !! "_id" = Some (VStr (uuid_source w (S (uuid_calls w))))
         ∧ stored2 !! "_id" ≠ stored !! "_id"
         ∧ trace w'' = trace w' ++ [InsertOne h stored2]
         ∧ users_of h w'' = (insert_one stored2 (users_of h w')).2
         ∧ (∀ h', h' ≠ h → users_of h' w'' = users_of h' w')).
Proof.
  intros Hc Hfresh. rewrite (create_user_eq _ h) by done. cbn zeta.
  eexists _, _, _. split; [reflexivity|]. split; [done|].
  split.
  { destruct (lacks_id user_data) eqn:Hlacks; [by rewrite lookup_insert_eq|].
    unfold lacks_id in Hlacks. by destruct (user_data !! "_id"). }
  split.
  { intros field Hfield. destruct (lacks_id user_data); [|done].
    by rewrite lookup_insert_ne. }
  split.
  { rewrite trace_set_users. by destruct (lacks_id user_data). }
  split; [by rewrite users_of_set_users|].
  split.
  { intros h' Hh'. rewrite users_of_set_users_ne, users_of_record_call by done.
    by destruct (lacks_id user_data), h'. }
  split; [done|].
  intros -> second Hsecond. rewrite (create_user_eq _ h) by done. cbn zeta.
  rewrite Hsecond. eexists _, _, _. split; [reflexivity|].
  rewrite uuid_source_set_users, uuid_calls_set_users. cbn.
  rewrite !lookup_insert_eq. split; [done|]. split.
  { intros [= Heq%Hfresh]. lia. }
  split; [by rewrite trace_set_users|].
  split; [by rewrite users_of_set_users|].
  intros h' Hh'. rewrite users_of_set_users_ne, users_of_record_call by done.
  by destruct h'.
Qed.

End FacadeProperties.

(** ** The reference collection *)

Section ReferenceCollection.
Implicit Types (c : Mem.t) (doc : Dict) (key : PyVal).

Lemma mem_has_id_true key doc :
  Mem.has_id key doc = true ↔ doc !! "_id" = Some key.
Proof. unfold Mem.has_id. apply bool_decide_eq_true. Qed.

Lemma mem_existsb_has_id key (l : list Dict) :
  existsb (Mem.has_id key) l = true ↔ ∃ doc, doc ∈ l ∧ doc !! "_id" = Some key.
Proof.
  rewrite existsb_exists. split; intros (doc & Hin & Hid); exists doc.
  - by rewrite list_elem_of_In, <- mem_has_id_true.
  - by rewrite <- list_elem_of_In, mem_has_id_true.
Qed.

Lemma mem_existsb_has_id_false key (l : list Dict) :
  existsb (Mem.has_id key) l = false ↔ ∀ doc, doc ∈ l → doc !! "_id" ≠ Some key.
Proof.
  rewrite <- not_true_iff_false, mem_existsb_has_id. split.
  - intros Hno doc Hin Hid. apply Hno. by exists doc.
  - intros Hall (doc & Hin & Hid). by apply (Hall doc).
Qed.

(** [find_one] on a collection with unique ids. *)
Lemma mem_find_present key (l : list Dict) doc :
  NoDup (map (λ d : Dict, d !! "_id") l) →
  doc ∈ l → doc !! "_id" = Some key →
  List.find (Mem.has_id key) l = Some doc.
Proof.
  induction l as [|d l IH]; [by intros _ ?%elem_of_nil|].
  cbn [map List.find]. intros [Hd Hl]%NoDup_cons Hin Hid.
  destruct (Mem.has_id key d) eqn:Hhas.
  - apply mem_has_id_true in Hhas.
    apply elem_of_cons in Hin as [->|Hin]; [done|].
    destruct Hd. rewrite Hhas, <- Hid. by apply list_elem_of_fmap_2.
  - apply elem_of_cons in Hin as [->|Hin]; [|by apply IH].
    apply mem_has_id_true in Hid. congruence.
Qed.

Lemma mem_find_absent key (l : list Dict) :
  (∀ doc, doc ∈ l → doc !! "_id" ≠ Some key) →
  List.find (Mem.has_id key) l = None.
Proof.
  intros Hall. destruct (List.find _ l) as [doc|] eqn:Hfind; [|done].
  apply find_some in Hfind as [Hin Hid].
  apply list_elem_of_In in Hin. apply mem_has_id_true in Hid.
  by destruct (Hall doc).
Qed.

(** [delete_one] removes the document carrying the key, and only it. *)
Lemma mem_remove_first_length key (l : list Dict) :
  existsb (Mem.has_id key) l = true →
  length l = S (length (Mem.remove_first key l)).
Proof.
  induction l as [|d l IH]; [done|]. cbn [existsb Mem.remove_first].
  destruct (Mem.has_id key d); [done|]. cbn. intros Hl. by rewrite <- IH.
Qed.

Lemma mem_remove_first_elem key (l : list Dict) doc :
  NoDup (map (λ d : Dict, d !! "_id") l) →
  doc ∈ Mem.remove_first key l ↔ doc ∈ l ∧ doc !! "_id" ≠ Some key.
Proof.
  induction l as [|d l IH]; cbn [map Mem.remove_first].
  - intros _. split; [by intros ?%elem_of_nil|by intros [?%elem_of_nil _]].
  - intros [Hd Hl]%NoDup_cons. destruct (Mem.has_id key d) eqn:Hhas.
    + apply mem_has_id_true in Hhas. rewrite elem_of_cons. split.
      * intros Hin. split; [by right|]. intros Hid. destruct Hd.
        rewrite Hhas, <- Hid. by apply list_elem_of_fmap_2.
      * intros [[->|Hin] Hid]; done.
    + rewrite !elem_of_cons, IH by done. split.
      * intros [->|[Hin Hid]]; [|by split; [right|]].
        split; [by left|]. intros Hid%mem_has_id_true. congruence.
      * intros [[->|Hin] Hid]; [by left|by right].
Qed.

Lemma mem_remove_first_ids key (l : list Dict) :
  NoDup (map (λ d : Dict, d !! "_id") l) →
  NoDup (map (λ d : Dict, d !! "_id") (Mem.remove_first key l)).
Proof.
  induction l as [|d l IH]; [done|]. cbn [map Mem.remove_first].
  intros [Hd Hl]%NoDup_cons. destruct (Mem.has_id key d) eqn:Hhas; [done|].
  cbn [map]. apply NoDup_cons. split; [|by apply IH].
  intros (d' & Heq & Hin)%list_elem_of_fmap.
  apply (mem_remove_first_elem key l d' Hl) in Hin as [Hin _].
  destruct Hd. rewrite Heq. by apply list_elem_of_fmap_2.
Qed.

(** The operations keep the ids unique. *)
Lemma mem_insert_one_unique doc c :
  Mem.unique_ids c → Mem.unique_ids (Mem.insert_one doc c).2.
Proof.
  intros [Hnd Hids]. unfold Mem.insert_one.
  destruct (doc !! "_id") as [key|] eqn:Hkey.
  - destruct (existsb _ _) eqn:Hex; [done|]. split; cbn.
    + rewrite map_app. apply NoDup_app. split; [done|]. split.
      * intros id (d & -> & Hd)%list_elem_of_fmap.
        cbn [map]. intros Heq%list_elem_of_singleton.
        apply mem_existsb_has_id_false with (doc := d) in Hex; [|done].
        congruence.
      * apply NoDup_singleton.
    + apply Forall_app. split; [done|]. apply Forall_singleton. by rewrite Hkey.
  - destruct (existsb _ _) eqn:Hex; [done|]. split; cbn.
    + rewrite map_app. apply NoDup_app. split; [done|]. split.
      * intros id (d & -> & Hd)%list_elem_of_fmap.
        cbn [map]. intros Heq%list_elem_of_singleton.
        rewrite lookup_insert_eq in Heq.
        by apply mem_existsb_has_id_false with (doc := d) in Hex.
      * apply NoDup_singleton.
    + apply Forall_app. split; [done|]. apply Forall_singleton.
      by rewrite lookup_insert_eq.
Qed.

Lemma mem_insert_many_unique documents c :
  Mem.unique_ids c → Mem.unique_ids (Mem.insert_many documents c).2.
Proof.
  unfold Mem.insert_many. destruct documents as [|doc0 documents0]; [done|].
  generalize (doc0 :: documents0). clear. intros documents. revert c.
  induction documents as [|doc documents IH]; intros c Hc; [done|].
  cbn [Mem.insert_each]. pose proof (mem_insert_one_unique doc c Hc) as Hc'.
  destruct (Mem.insert_one doc c) as [[[]|e] c']; [by apply IH|done].
Qed.

Lemma mem_delete_one_unique key c :
  Mem.unique_ids c → Mem.unique_ids (Mem.delete_one key c).2.
Proof.
  intros [Hnd Hids]. unfold Mem.delete_one.
  destruct (existsb _ _); [|done]. split; cbn.
  - by apply mem_remove_first_ids.
  - apply Forall_forall. intros d [Hd _]%mem_remove_first_elem; [|done].
    by eapply Forall_forall in Hids.
Qed.

End ReferenceCollection.

(** ** Connecting touches no collection *)

Section StoresKept.
Context {C : Type} `{!Collection C}.

Lemma stores_kept_ret {A} (a : A) : stores_kept (C:=C) (ret a).
Proof. done. Qed.

Lemma stores_kept_raise {A} e : stores_kept (C:=C) (raise (A:=A) e).
Proof. done. Qed.

Lemma stores_kept_bind {A B} (m : M C A) (k : A → M C B) :
  stores_kept m → (∀ a, stores_kept (k a)) → stores_kept (bind m k).
Proof.
  intros Hm Hk w h. unfold bind. specialize (Hm w h).
  destruct (m w) as [[a|e] w']; [|done].
  by rewrite Hk.
Qed.

Lemma stores_kept_try_except {A} (m : M C A) (handler : exn → M C A) :
  stores_kept m → (∀ e, stores_kept (handler e)) → stores_kept (try_except m handler).
Proof.
  intros Hm Hk w h. unfold try_except. specialize (Hm w h).
  destruct (m w) as [[a|e] w']; [done|].
  by rewrite Hk.
Qed.

Lemma stores_kept_getenv key : stores_kept (C:=C) (getenv key).
Proof. done. Qed.

Lemma stores_kept_getenv_default key fallback :
  stores_kept (C:=C) (getenv_default key fallback).
Proof. done. Qed.

Lemma stores_kept_sdk call : stores_kept (C:=C) (sdk call).
Proof.
  intros w h. unfold sdk.
  destruct (setup_fault w call); apply users_of_record_call.
Qed.

Create HintDb stores discriminated.
#[local] Hint Resolve stores_kept_ret stores_kept_raise stores_kept_getenv
  stores_kept_getenv_default stores_kept_sdk : stores.
#[local] Hint Extern 2 (stores_kept (bind _ _)) =>
  apply stores_kept_bind; [|intros ?] : stores.
#[local] Hint Extern 2 (stores_kept (try_except _ _)) =>
  apply stores_kept_try_except; [|intros ?] : stores.
#[local] Hint Extern 3 (stores_kept (if ?b then _ else _)) =>
  destruct b : stores.

Lemma stores_kept_setup_hcd self : stores_kept (C:=C) (_setup_hcd self).
Proof. unfold _setup_hcd. auto 20 with stores. Qed.

Lemma stores_kept_setup_mongodb self : stores_kept (C:=C) (_setup_mongodb self).
Proof. unfold _setup_mongodb. auto 20 with stores. Qed.

Lemma stores_kept_setup_astra self : stores_kept (C:=C) (_setup_astra self).
Proof. unfold _setup_astra. auto 20 with stores. Qed.

Lemma stores_kept_setup_connection self :
  stores_kept (C:=C) (_setup_connection self).
Proof.
  unfold _setup_connection.
  repeat (destruct (String.eqb _ _));
    auto using stores_kept_setup_hcd, stores_kept_setup_mongodb,
      stores_kept_setup_astra, stores_kept_raise.
Qed.

Lemma stores_kept_init : stores_kept (C:=C) __init__.
Proof.
  unfold __init__. apply stores_kept_bind; [done|].
  intros t. apply stores_kept_setup_connection.
Qed.

Lemma stores_kept_temporary_hcd_manager :
  stores_kept (C:=C) temporary_hcd_manager.
Proof.
  unfold temporary_hcd_manager. apply stores_kept_bind; [apply stores_kept_init|].
  intros m. apply stores_kept_setup_hcd.
Qed.

Lemma stores_kept_coll_find self : stores_kept (C:=C) (coll_find self).
Proof.
  intros w h. unfold coll_find. destruct (collection self); [|done].
  apply users_of_record_call.
Qed.

End StoresKept.

(** ** The facade over reference collections *)

Section ReferenceWorld.
Implicit Types (w : World Mem.t) (self : DatabaseManager) (doc : Dict).

Lemma mem_insert_one_fresh doc c :
  is_Some (doc !! "_id") →
  (∀ d, d ∈ Mem.docs c → d !! "_id" ≠ doc !! "_id") →
  Mem.insert_one doc c
  = (Ok (), {| Mem.docs := Mem.docs c ++ [doc]; Mem.next_oid := Mem.next_oid c |}).
Proof.
  intros [key Hkey] Hfresh. unfold Mem.insert_one. rewrite Hkey.
  replace (existsb (Mem.has_id key) (Mem.docs c)) with false; [done|].
  symmetry. apply mem_existsb_has_id_false. intros d Hd. rewrite <- Hkey. auto.
Qed.

Lemma mem_insert_each_fresh documents c :
  Mem.no_collisions documents c →
  Mem.insert_each documents c
  = (Ok (), {| Mem.docs := Mem.docs c ++ documents;
               Mem.next_oid := Mem.next_oid c |}).
Proof.
  revert c. induction documents as [|doc documents IH]; intros c (Hids & Hnd & Hfresh).
  - rewrite app_nil_r. by destruct c.
  - cbn [Mem.insert_each]. apply Forall_cons in Hids as [Hid Hids].
    cbn [map] in Hnd. apply NoDup_cons in Hnd as [Hdoc Hnd].
    rewrite mem_insert_one_fresh; [|done|].
    2:{ intros d Hd. apply Hfresh; [by left|done]. }
    rewrite IH; [cbn; by rewrite <- app_assoc|].
    split; [done|]. split; [done|]. cbn. intros doc' d Hdoc' Hd.
    apply elem_of_app in Hd as [Hd | ->%list_elem_of_singleton].
    + apply Hfresh; [by right|done].
    + intros Heq. apply Hdoc. rewrite Heq. by apply list_elem_of_fmap_2.
Qed.

Lemma mem_submit_fresh hd (bs : list (list Dict)) w :
  Forall (λ b, b ≠ []) bs →
  Mem.no_collisions (concat bs) (users_of hd w) →
  (submit_batches hd bs w).1 = map (λ _, None) bs.
Proof.
  revert w. induction bs as [|b bs IH]; intros w Hne (Hids & Hnd & Hfresh); [done|].
  apply Forall_cons in Hne as [Hb Hne].
  cbn [concat] in *. apply Forall_app in Hids as [Hidb Hids].
  rewrite map_app in Hnd. apply NoDup_app in Hnd as (Hndb & Hdisj & Hnd).
  cbn [submit_batches]. rewrite users_of_record_call.
  cbn [insert_many Mem_Collection]. unfold Mem.insert_many.
  destruct b as [|doc0 b0]; [done|].
  rewrite mem_insert_each_fresh.
  2:{ split; [done|]. split; [done|]. intros doc d Hdoc Hd.
      apply Hfresh; [|done]. apply elem_of_app. by left. }
  match goal with |- context [submit_batches hd bs ?w'] =>
    specialize (IH w' Hne); destruct (submit_batches hd bs w') as [answers w3]
  end.
  cbn [fst] in IH. cbn [fst map]. f_equal. apply IH.
  split; [done|]. split; [done|]. rewrite users_of_set_users. cbn.
  intros doc d Hdoc Hd. apply elem_of_app in Hd as [Hd|Hd].
  - apply Hfresh; [|done]. apply elem_of_app. by right.
  - intros Heq. apply (Hdisj (d !! "_id")); [by apply list_elem_of_fmap_2|].
    rewrite Heq. by apply list_elem_of_fmap_2.
Qed.

Lemma synced_of_all bs :
  synced_of bs (map (λ _, None) bs) = length (concat bs)
  ∧ errors_of bs (map (λ _, None) bs) = [].
Proof.
  induction bs as [|b bs [IH1 IH2]]; [done|].
  cbn [map synced_of errors_of concat]. by rewrite length_app, IH1, IH2.
Qed.

(** Batches without collisions all arrive: the collection afterwards holds
    what it held followed by the records of the batches, in order. *)
Lemma mem_submit_fresh_docs hd (bs : list (list Dict)) w :
  Forall (λ b, b ≠ []) bs →
  Mem.no_collisions (concat bs) (users_of hd w) →
  Mem.docs (users_of hd (submit_batches hd bs w).2)
  = Mem.docs (users_of hd w) ++ concat bs.
Proof.
  revert w. induction bs as [|b bs IH]; intros w Hne (Hids & Hnd & Hfresh).
  { by rewrite app_nil_r. }
  apply Forall_cons in Hne as [Hb Hne].
  cbn [concat] in *. apply Forall_app in Hids as [Hidb Hids].
  rewrite map_app in Hnd. apply NoDup_app in Hnd as (Hndb & Hdisj & Hnd).
  cbn [submit_batches]. rewrite users_of_record_call.
  cbn [insert_many Mem_Collection]. unfold Mem.insert_many.
  destruct b as [|doc0 b0]; [done|].
  rewrite mem_insert_each_fresh.
  2:{ split; [done|]. split; [done|]. intros doc d Hdoc Hd.
      apply Hfresh; [|done]. apply elem_of_app. by left. }
  match goal with |- context [submit_batches hd bs ?w'] =>
    specialize (IH w' Hne); destruct (submit_batches hd bs w') as [answers w3]
  end.
  cbn [snd] in *. rewrite users_of_set_users in IH. cbn [Mem.docs] in IH.
  rewrite IH; [by rewrite <- app_assoc|].
  split; [done|]. split; [done|].
  intros doc d Hdoc Hd. apply elem_of_app in Hd as [Hd|Hd].
  - apply Hfresh; [|done]. apply elem_of_app. by right.
  - intros Heq. apply (Hdisj (d !! "_id")); [by apply list_elem_of_fmap_2|].
    rewrite Heq. by apply list_elem_of_fmap_2.
Qed.

Lemma delete_user_mem self h user_id w :
  collection self = Some h →
  delete_user self user_id w
  = (Ok (existsb (Mem.has_id (VStr user_id)) (Mem.docs (users_of h w))),
     set_users h (Mem.delete_one (VStr user_id) (users_of h w)).2
       (record_call (DeleteOne h (VStr user_id)) w)).
Proof.
  intros Hc. unfold delete_user, bind. rewrite (coll_delete_one_eq _ h) by done.
  cbn [delete_one Mem_Collection]. unfold Mem.delete_one.
  by destruct (existsb _ _).
Qed.

Lemma delete_user_absent self h user_id w :
  collection self = Some h →
  (∀ doc, doc ∈ Mem.docs (users_of h w) → doc !! "_id" ≠ Some (VStr user_id)) →
  (delete_user self user_id w).1 = Ok false
  ∧ users_of h (delete_user self user_id w).2 = users_of h w.
Proof.
  intros Hc Habsent%mem_existsb_has_id_false.
  rewrite (delete_user_mem _ h) by done. cbn [fst snd].
  rewrite users_of_set_users. unfold Mem.delete_one. by rewrite Habsent.
Qed.

(** C7.  On a facade bound to a collection with unique ids, [delete_user]
    returns [True] exactly when a record with that key is stored and [False]
    otherwise.  It removes one record in the first case and none in the
    second; the records left are the stored ones with another key.  After
    the call, every further call with the same key returns [False]. *)
Theorem delete_user_true_once self h user_id w :
  collection self = Some h →
  Mem.unique_ids (users_of h w) →
  ∃ removed w',
    delete_user self user_id w = (Ok removed, w')
    ∧ (removed = true ↔
         ∃ doc, doc ∈ Mem.docs (users_of h w)
                ∧ doc !! "_id" = Some (VStr user_id))
    ∧ length (Mem.docs (users_of h w))
      = length (Mem.docs (users_of h w')) + (if removed then 1 else 0)
    ∧ (∀ doc, doc ∈ Mem.docs (users_of h w') ↔
              doc ∈ Mem.docs (users_of h w)
              ∧ doc !! "_id" ≠ Some (VStr user_id))
    ∧ Mem.unique_ids (users_of h w')
    ∧ ∀ n, (delete_user self user_id
              (Nat.iter n (λ w, (delete_user self user_id w).2) w')).1
           = Ok false.
Proof.
  intros Hc [Hnd Hids]. rewrite (delete_user_mem _ h) by done.
  eexists _, _. split; [reflexivity|]. rewrite users_of_set_users.
  split; [apply mem_existsb_has_id|].
  assert (∀ doc, doc ∈ Mem.docs (Mem.delete_one (VStr user_id) (users_of h w)).2 ↔
            doc ∈ Mem.docs (users_of h w) ∧ doc !! "_id" ≠ Some (VStr user_id))
    as Hleft.
  { intros doc. unfold Mem.delete_one.
    destruct (existsb _ _) eqn:Hex; cbn [snd Mem.docs].
    - by apply mem_remove_first_elem.
    - split; [|by intros [? _]]. intros Hdoc. split; [done|].
      by apply (proj1 (mem_existsb_has_id_false _ _) Hex). }
  split.
  { unfold Mem.delete_one. destruct (existsb _ _) eqn:Hex; cbn [snd Mem.docs].
    - rewrite (mem_remove_first_length _ _ Hex). lia.
    - lia. }
  split; [done|].
  split; [by apply mem_delete_one_unique|].
  intros n.
  assert (∀ doc,
            doc ∈ Mem.docs (users_of h
              (Nat.iter n (λ w, (delete_user self user_id w).2)
                 (set_users h (Mem.delete_one (VStr user_id) (users_of h w)).2
                    (record_call (DeleteOne h (VStr user_id)) w)))) →
            doc !! "_id" ≠ Some (VStr user_id)) as Hgone.
  { induction n as [|n IH].
    - unfold Nat.iter. cbn [nat_rect]. rewrite users_of_set_users.
      intros doc Hdoc. by apply Hleft in Hdoc as [_ ?].
    - rewrite Nat.iter_succ.
      destruct (delete_user_absent self h user_id _ Hc IH) as [_ ->]. done. }
  by destruct (delete_user_absent self h user_id _ Hc Hgone) as [-> _].
Qed.

(** C8.  On a facade bound to a collection with unique ids,
    [get_user_by_id] never raises and leaves the collection as it is.  It
    returns the record whose [_id] is the given string when one is stored and
    [None] when none is, which is the case for a key that was never inserted
    and for a key that [delete_user] has just removed. *)
Theorem get_user_by_id_record_or_none self h user_id w :
  collection self = Some h →
  Mem.unique_ids (users_of h w) →
  ∃ answer w',
    get_user_by_id self user_id w = (Ok answer, w')
    ∧ users_of h w' = users_of h w
    ∧ (∀ doc, doc ∈ Mem.docs (users_of h w) →
              doc !! "_id" = Some (VStr user_id) → answer = Some doc)
    ∧ ((∀ doc, doc ∈ Mem.docs (users_of h w) →
               doc !! "_id" ≠ Some (VStr user_id)) → answer = None)
    ∧ (get_user_by_id self user_id (Mem_world_empty h w)).1 = Ok None
    ∧ (get_user_by_id self user_id (delete_user self user_id w).2).1 = Ok None.
Proof.
  intros Hc [Hnd Hids]. unfold get_user_by_id.
  rewrite !(coll_find_one_eq _ h) by done.
  cbn [find_one Mem_Collection]. unfold Mem.find_one.
  eexists _, _. split; [reflexivity|].
  split; [apply users_of_record_call|].
  split; [by intros doc Hdoc Hid; f_equal; apply mem_find_present|].
  split; [by intros Habsent; apply mem_find_absent|].
  split.
  { unfold Mem_world_empty. by rewrite users_of_set_users. }
  cbn [fst]. f_equal. apply mem_find_absent.
  rewrite (delete_user_mem _ h) by done. cbn [snd].
  rewrite users_of_set_users. intros doc. unfold Mem.delete_one.
  destruct (existsb _ _) eqn:Hex; cbn [snd Mem.docs].
  - by intros [_ ?]%mem_remove_first_elem.
  - by apply (proj1 (mem_existsb_has_id_false _ _) Hex).
Qed.

(** C5.  Take a run from a ["mongodb"] facade whose cursor yields [users]
    to the end and whose temporary HCD manager was set up.  From then on the
    migration hands each batch of [chunks batch_size users] once, in order,
    to [insert_many] of the HCD collection, and does nothing else: the world
    it leaves is the one these bulk inserts leave, and the only SDK calls are
    one [insert_many] per batch.  The batches are consecutive pieces of
    [users], none is empty or longer than 100 and all but the last hold
    exactly 100.  For 250 records whose keys collide neither with each other
    nor with a key in the HCD collection, these are three bulk inserts of
    100, 100 and 50 records, after which the HCD collection holds what it
    held followed by the 250 records, and the report has success true, a
    synced count of 250 and no errors.  For no records there is no call, the
    HCD collection is as before, and the report has success true, a synced
    count of 0 and no errors. *)
Theorem migrate_batches_of_100 self w users w1 hm w2 :
  db_type self = "mongodb" →
  coll_find self w = (Ok (users, None), w1) →
  temporary_hcd_manager w1 = (Ok hm, w2) →
  let bs := chunks batch_size users in
  ∃ report w3,
    sync_mongodb_to_hcd self w = (Ok report, w3)
    ∧ w3 = (submit_batches HHcd bs w2).2
    ∧ trace w3 = trace w2 ++ map (InsertMany HHcd) bs
    ∧ concat bs = users
    ∧ Forall (λ b, 0 < length b ≤ 100) bs
    ∧ (∀ i b, bs !! i = Some b → S i < length bs → length b = 100)
    ∧ (length users = 250 → Mem.no_collisions users (hcd_users w) →
         map length bs = [100; 100; 50]
         ∧ Mem.docs (hcd_users w3) = Mem.docs (hcd_users w) ++ users
         ∧ report !! "success" = Some (RBool true)
         ∧ report !! "synced_count" = Some (RInt 250)
         ∧ report !! "errors" = Some (RStrs []))
    ∧ (users = [] →
         trace w3 = trace w2
         ∧ hcd_users w3 = hcd_users w
         ∧ report !! "success" = Some (RBool true)
         ∧ report !! "synced_count" = Some (RInt 0)
         ∧ report !! "errors" = Some (RStrs [])).
Proof.
  intros Hdb Hfind Hsetup bs.
  assert (0 < batch_size) as Hpos by (unfold batch_size; lia).
  destruct (sync_body_batches _ _ _ _ _ _ Hfind Hsetup) as (st & Hbody & Htot & Herrs).
  fold bs in Hbody, Htot, Herrs.
  destruct (chunks_sizes batch_size users Hpos) as [Hsizes Hfull].
  fold bs in Hsizes, Hfull.
  destruct (sync_report_fields st) as (Hs & _ & Hn & He).
  assert (users_of HHcd w2 = hcd_users w) as Hstore.
  { pose proof (stores_kept_temporary_hcd_manager w1 HHcd) as H2.
    pose proof (stores_kept_coll_find self w HHcd) as H1.
    rewrite Hsetup in H2. rewrite Hfind in H1. cbn [snd] in *.
    by rewrite H2, H1. }
  exists (sync_report st), (submit_batches HHcd bs w2).2.
  split; [by rewrite (sync_from_mongodb _ _ Hdb), Hbody|].
  split; [done|].
  split; [apply submit_batches_trace|].
  split; [by apply chunks_concat|].
  split; [done|]. split; [done|]. split.
  - intros Hlen Hfresh.
    assert (Forall (λ b : list Dict, b ≠ []) bs) as Hne.
    { eapply Forall_impl; [exact Hsizes|]. intros b [Hb _] ->. simpl in Hb. lia. }
    assert (Mem.no_collisions (concat bs) (users_of HHcd w2)) as Hfresh2.
    { unfold bs. rewrite chunks_concat, Hstore by done. done. }
    assert ((submit_batches HHcd bs w2).1 = map (λ _, None) bs) as Hanswers
      by (by apply mem_submit_fresh).
    pose proof (mem_submit_fresh_docs HHcd bs w2 Hne Hfresh2) as Hdocs.
    unfold bs in Hdocs at 2. rewrite chunks_concat, Hstore in Hdocs by done.
    rewrite Hanswers in Htot, Herrs.
    destruct (synced_of_all bs) as [Hall Hnone].
    rewrite Hall in Htot. rewrite Hnone in Herrs.
    unfold bs in Htot. rewrite chunks_concat in Htot by done.
    split; [unfold bs; by rewrite chunks_lengths, Hlen|].
    split; [exact Hdocs|].
    by rewrite Hs, Hn, He, Htot, Herrs, Hlen.
  - intros ->. rewrite submit_batches_trace. unfold bs in *.
    rewrite chunks_nil in *. cbn in Htot, Herrs.
    split; [by rewrite app_nil_r|]. split; [exact Hstore|].
    by rewrite Hs, Hn, He, Htot, Herrs.
Qed.

(** C3 at the input [{"_id": 42, "name": "Ada"}]: [create_user] stores the
    record as it is.  The stored key is the integer 42, not a string, and no
    string passed to [get_user_by_id] finds the record again. *)
Theorem create_user_keeps_integer_key :
  let user_data : Dict := {[ "_id" := VInt 42; "name" := VStr "Ada" ]} in
  let w := Sample.world Sample.env [] [] in
  ∃ w',
    create_user Sample.mongo_manager user_data w = (user_data, Ok user_data, w')
    ∧ Mem.docs (mongo_users w') = [user_data]
    ∧ user_data !! "_id" = Some (VInt 42)
    ∧ is_str (VInt 42) = false
    ∧ ∀ user_id, (get_user_by_id Sample.mongo_manager user_id w').1 = Ok None.
Proof.
  intros user_data w. eexists. split; [reflexivity|].
  split; [reflexivity|]. split; [reflexivity|]. split; [reflexivity|].
  intros user_id. unfold get_user_by_id.
  rewrite (coll_find_one_eq _ HMongo) by done. cbn [fst]. f_equal.
Qed.

(** When [create_user] draws the key, or the caller passes a string, the
    stored key is a string. *)
Lemma create_user_string_key self h user_data w :
  collection self = Some h →
  (lacks_id user_data = true ∨ ∃ key, user_data !! "_id" = Some (VStr key)) →
  ∃ key, (create_user self user_data w).1.1 !! "_id" = Some (VStr key).
Proof.
  intros Hc Hcase. rewrite (create_user_eq _ h) by done. cbn [fst].
  destruct (lacks_id user_data) eqn:Hlacks.
  - eexists. apply lookup_insert_eq.
  - by destruct Hcase as [?|[key Hkey]]; [|exists key].
Qed.

End ReferenceWorld.

(** ** The claims on sample data *)

Section Examples.
Import Sample.

(** A run is determined by what it returns and the world it leaves. *)
Lemma run_returns {A} (m : M Mem.t A) (w : World Mem.t) a :
  (m w).1 = Ok a → m w = (Ok a, (m w).2).
Proof. destruct (m w) as [r w']. by intros [= ->]. Qed.

Lemma uuids_never_repeat i j : uuids i = uuids j → i = j.
Proof.
  unfold uuids. intros Heq%(inj (String.append _))%(inj pretty). lia.
Qed.

Lemma unique_ids_decide (c : Mem.t) :
  bool_decide (NoDup (map (λ doc : Dict, doc !! "_id") (Mem.docs c))) = true →
  bool_decide (Forall (λ doc : Dict, is_Some (doc !! "_id")) (Mem.docs c)) = true →
  Mem.unique_ids c.
Proof. intros ?%bool_decide_eq_true ?%bool_decide_eq_true. by split. Qed.

Lemma no_collisions_decide (l : list Dict) :
  bool_decide (Forall (λ doc : Dict, is_Some (doc !! "_id")) l) = true →
  bool_decide (NoDup (map (λ doc : Dict, doc !! "_id") l)) = true →
  Mem.no_collisions l (store []).
Proof.
  intros ?%bool_decide_eq_true ?%bool_decide_eq_true.
  split; [done|]. split; [done|]. by intros doc d _ ?%elem_of_nil.
Qed.

(** A facade bound to HCD refuses to migrate; its report has no
    ["synced_count"] entry at all, so the entry is not 0. *)
Lemma migrate_wrong_backend_has_no_count :
  db_type hcd_manager ≠ "mongodb"
  ∧ ∃ report w',
      sync_mongodb_to_hcd hcd_manager (world env (users 3) []) = (Ok report, w')
      ∧ report !! "success" = Some (RBool false)
      ∧ report !! "synced_count" ≠ Some (RInt 0).
Proof.
  split; [done|].
  exists (failure_report "Sync only available from MongoDB"),
    (world env (users 3) []).
  split; [by apply sync_wrong_backend|]. done.
Qed.

Lemma migrate_wrong_backend_refused_witness :
  db_type hcd_manager ≠ "mongodb"
  ∧ ∃ report,
      sync_mongodb_to_hcd hcd_manager (world env (users 3) [])
      = (Ok report, world env (users 3) [])
      ∧ report !! "success" = Some (RBool false)
      ∧ report !! "message" = Some (RStr "Sync only available from MongoDB")
      ∧ report !! "synced_count" = None
      ∧ report !! "errors" = None.
Proof.
  split; [done|].
  apply (migrate_wrong_backend_refused hcd_manager (world env (users 3) [])).
  done.
Defined.

(** Two reports without ["synced_count"] and ["errors"]: the one of a
    facade bound to HCD, whose success flag is false although the body would
    have run to its end without an exception, and the one of a run that
    fails because the HCD settings are missing. *)
Lemma migrate_report_without_count :
  (∃ report w' st w1,
     sync_mongodb_to_hcd hcd_manager (world env (users 3) []) = (Ok report, w')
     ∧ sync_body hcd_manager (world env (users 3) []) = (Ok st, w1)
     ∧ report !! "success" = Some (RBool false)
     ∧ report !! "synced_count" = None
     ∧ report !! "errors" = None)
  ∧ (∃ report w',
       sync_mongodb_to_hcd mongo_manager (world ∅ (users 3) []) = (Ok report, w')
       ∧ report !! "success" = Some (RBool false)
       ∧ report !! "message"
         = Some (RStr ("Sync failed: " +:+ hcd_incomplete))
       ∧ report !! "synced_count" = None
       ∧ report !! "errors" = None).
Proof.
  split.
  - exists (failure_report "Sync only available from MongoDB"),
      (world env (users 3) []),
      {| batch := []; total_synced := 0; errors := [] |},
      (sync_body hcd_manager (world env (users 3) [])).2.
    split; [by apply sync_wrong_backend|].
    split; [apply run_returns; reflexivity|]. done.
  - exists (failure_report ("Sync failed: " +:+ hcd_incomplete)),
      (sync_mongodb_to_hcd mongo_manager (world ∅ (users 3) [])).2.
    split; [apply run_returns; reflexivity|]. done.
Qed.

Lemma construction_fails_fast_witness :
  __init__ (world {[ "DATABASE_TYPE" := "redis" ]} [] [])
  = (Raise (ValueError "Unsupported database type: redis"),
     world {[ "DATABASE_TYPE" := "redis" ]} [] [])
  ∧ __init__ (world {[ "DATABASE_TYPE" := "hcd"; "HCD_USERNAME" := "cassandra";
                       "HCD_PASSWORD" := "cassandra" ]} [] [])
    = (Raise (ValueError hcd_incomplete),
       world {[ "DATABASE_TYPE" := "hcd"; "HCD_USERNAME" := "cassandra";
                "HCD_PASSWORD" := "cassandra" ]} [] [])
  ∧ __init__ (world {[ "DATABASE_TYPE" := "astra"; "ASTRA_DB_ID" := "db";
                       "ASTRA_DB_REGION" := "eu-west-1" ]} [] [])
    = (Raise (ValueError astra_incomplete),
       world {[ "DATABASE_TYPE" := "astra"; "ASTRA_DB_ID" := "db";
                "ASTRA_DB_REGION" := "eu-west-1" ]} [] []).
Proof.
  split; [|split].
  - pose proof (construction_fails_fast
                  (world {[ "DATABASE_TYPE" := "redis" ]} [] [])) as Hfails.
    cbv zeta in Hfails. destruct Hfails as (Hunsupported & _).
    apply Hunsupported; vm_compute; discriminate.
  - pose proof (construction_fails_fast
                  (world {[ "DATABASE_TYPE" := "hcd"; "HCD_USERNAME" := "cassandra";
                            "HCD_PASSWORD" := "cassandra" ]} [] [])) as Hfails.
    cbv zeta in Hfails. destruct Hfails as (_ & Hhcd & _).
    destruct (Hhcd (or_introl eq_refl)) as [Hinit _]. by apply Hinit.
  - pose proof (construction_fails_fast
                  (world {[ "DATABASE_TYPE" := "astra"; "ASTRA_DB_ID" := "db";
                            "ASTRA_DB_REGION" := "eu-west-1" ]} [] [])) as Hfails.
    cbv zeta in Hfails. destruct Hfails as (_ & _ & Hastra & _).
    destruct (Hastra (or_intror (or_intror eq_refl))) as [Hinit _].
    by apply Hinit.
Defined.

(** 250 records of which number 150 is already in HCD: the second batch is
    skipped as a whole, although its first 49 records were inserted before
    the bulk insert raised. *)
Lemma migrate_failed_batch_skipped_whole_witness :
  ∃ report w',
    sync_mongodb_to_hcd mongo_manager (world env (users 250) [user 150])
    = (Ok report, w')
    ∧ report !! "success" = Some (RBool true)
    ∧ report !! "synced_count" = Some (RInt 150)
    ∧ report !! "errors"
      = Some (RStrs ["User user-101: batch op errors occurred";
                     "User user-102: batch op errors occurred";
                     "User user-103: batch op errors occurred";
                     "User user-104: batch op errors occurred";
                     "User user-105: batch op errors occurred"])
    ∧ length (Mem.docs (hcd_users w')) = 200.
Proof.
  pose (w := world env (users 250) [user 150]).
  pose proof (migrate_failed_batch_skipped_whole mongo_manager w (users 250)
                (coll_find mongo_manager w).2 hcd_manager
                (temporary_hcd_manager (coll_find mongo_manager w).2).2) as Hrun.
  cbv zeta in Hrun.
  destruct Hrun as (st & _ & Hsync & _ & _ & _ & _ & _ & Hs & Hn & He).
  { reflexivity. }
  { apply (run_returns (coll_find mongo_manager)). reflexivity. }
  { apply (run_returns temporary_hcd_manager). vm_compute. reflexivity. }
  eexists _, _. split; [exact Hsync|]. split; [exact Hs|].
  split; [rewrite Hn; vm_compute; reflexivity|].
  split; [rewrite He; vm_compute; reflexivity|].
  vm_compute. reflexivity.
Defined.

Lemma migrate_batches_of_100_witness :
  ∃ report w',
    sync_mongodb_to_hcd mongo_manager (world env (users 250) []) = (Ok report, w')
    ∧ report !! "success" = Some (RBool true)
    ∧ report !! "synced_count" = Some (RInt 250)
    ∧ report !! "errors" = Some (RStrs [])
    ∧ map length (chunks batch_size (users 250)) = [100; 100; 50]
    ∧ Mem.docs (hcd_users w') = users 250.
Proof.
  pose (w := world env (users 250) []).
  pose proof (migrate_batches_of_100 mongo_manager w (users 250)
                (coll_find mongo_manager w).2 hcd_manager
                (temporary_hcd_manager (coll_find mongo_manager w).2).2) as Hrun.
  cbv zeta in Hrun.
  destruct Hrun as (report & w' & Hsync & _ & _ & _ & _ & _ & H250 & _).
  { reflexivity. }
  { apply (run_returns (coll_find mongo_manager)). reflexivity. }
  { apply (run_returns temporary_hcd_manager). vm_compute. reflexivity. }
  destruct H250 as (Hsizes & Hdocs & Hs & Hn & He).
  { vm_compute. reflexivity. }
  { apply no_collisions_decide; vm_compute; reflexivity. }
  exists report, w'.
  exact (conj Hsync (conj Hs (conj Hn (conj He (conj Hsizes Hdocs))))).
Defined.

(** Seven records that are all in HCD already: none is synced, seven
    entries are accumulated, five are reported and the message says 7. *)
Lemma migrate_accounts_for_every_record_witness :
  ∃ report w',
    sync_mongodb_to_hcd mongo_manager (world env (users 7) (users 7))
    = (Ok report, w')
    ∧ report !! "synced_count" = Some (RInt 0)
    ∧ (∃ errs, report !! "errors" = Some (RStrs errs) ∧ length errs = 5)
    ∧ report !! "message"
      = Some (RStr "Successfully synced 0 users to DataStax HCD. 7 users skipped (likely duplicates)").
Proof.
  pose (w := world env (users 7) (users 7)).
  pose (st := {| batch := users 7; total_synced := 0;
                 errors := map (error_entry (DriverError "batch op errors occurred"))
                               (users 7) |}).
  destruct (migrate_accounts_for_every_record mongo_manager w st
              (sync_body mongo_manager w).2)
    as (docs & w1 & Hfind & Hlen & Hsync & Hn & He & Hm).
  { reflexivity. }
  { apply (run_returns (sync_body mongo_manager)). reflexivity. }
  eexists _, _. split; [exact Hsync|].
  split; [exact Hn|]. split; [eexists; split; [exact He|reflexivity]|].
  rewrite Hm, Hlen. vm_compute. reflexivity.
Defined.

Lemma create_user_assigns_fresh_key_witness :
  let first :=
    create_user mongo_manager {[ "name" := VStr "Ada" ]} (world env [] []) in
  let second :=
    create_user mongo_manager
      {[ "name" := VStr "Grace"; "_id" := VStr EmptyString ]} first.2 in
  length (Mem.docs (mongo_users first.2)) = 1
  ∧ length (Mem.docs (mongo_users second.2)) = 2
  ∧ first.1.1 = {[ "_id" := VStr "3f2b8c1e-7a4d-4e0b-9c55-100000000000";
                   "name" := VStr "Ada" ]}
  ∧ first.1.2 = Ok first.1.1
  ∧ second.1.1 !! "_id" = Some (VStr "3f2b8c1e-7a4d-4e0b-9c55-100000000001")
  ∧ second.1.1 !! "_id" ≠ first.1.1 !! "_id"
  ∧ trace second.2 = [InsertOne HMongo first.1.1; InsertOne HMongo second.1.1].
Proof.
  intros first second.
  split; [vm_compute; reflexivity|]. split; [vm_compute; reflexivity|].
  destruct (create_user_assigns_fresh_key mongo_manager HMongo
              {[ "name" := VStr "Ada" ]} (world env [] []) eq_refl
              uuids_never_repeat)
    as (stored & result & w' & Hcreate & Hstored & _ & _ & Htrace & _ & _
        & Hresult & Hnext).
  assert (lacks_id {[ "name" := VStr "Ada" ]} = true) as Hlacks by reflexivity.
  assert (lacks_id {[ "name" := VStr "Grace"; "_id" := VStr EmptyString ]} = true)
    as Hlacks2 by reflexivity.
  destruct (Hnext Hlacks _ Hlacks2)
    as (stored2 & result2 & w'' & Hcreate2 & Hid2 & Hne & Htrace2 & _).
  subst first second. cbv zeta. rewrite Hcreate. cbn [fst snd].
  rewrite Hcreate2. cbn [fst snd].
  split; [rewrite Hstored; reflexivity|].
  split; [rewrite Hresult, Hstored; reflexivity|].
  split; [rewrite Hid2; vm_compute; reflexivity|].
  split; [exact Hne|].
  rewrite Htrace2, Htrace. reflexivity.
Defined.

Lemma delete_user_true_once_witness :
  let first := delete_user mongo_manager "user-2" (world env (users 3) []) in
  let second := delete_user mongo_manager "user-2" first.2 in
  let third := delete_user mongo_manager "user-2" second.2 in
  first.1 = Ok true
  ∧ length (Mem.docs (mongo_users first.2)) = 2
  ∧ second.1 = Ok false
  ∧ third.1 = Ok false.
Proof.
  intros first second third.
  destruct (delete_user_true_once mongo_manager HMongo "user-2"
              (world env (users 3) []) eq_refl)
    as (removed & w' & Hdelete & Hiff & Hlen & _ & _ & Hagain).
  { apply unique_ids_decide; vm_compute; reflexivity. }
  assert (removed = true) as ->.
  { apply Hiff. exists (user 2). split; [|reflexivity].
    apply list_elem_of_In. right. left. reflexivity. }
  subst first second third. cbv zeta. rewrite Hdelete. cbn [fst snd].
  assert (length (Mem.docs (users_of HMongo (world env (users 3) []))) = 3)
    as Hthree by (vm_compute; reflexivity).
  rewrite Hthree in Hlen. cbn [users_of] in Hlen.
  split; [reflexivity|]. split; [lia|].
  split; [exact (Hagain 0)|exact (Hagain 1)].
Defined.

Lemma get_user_by_id_record_or_none_witness :
  (get_user_by_id mongo_manager "user-2" (world env (users 3) [])).1
  = Ok (Some (user 2))
  ∧ (get_user_by_id mongo_manager "user-9" (world env (users 3) [])).1 = Ok None
  ∧ (get_user_by_id mongo_manager "user-2"
       (delete_user mongo_manager "user-2" (world env (users 3) [])).2).1
    = Ok None.
Proof.
  assert (Mem.unique_ids (users_of HMongo (world env (users 3) []))) as Huniq.
  { apply unique_ids_decide; vm_compute; reflexivity. }
  destruct (get_user_by_id_record_or_none mongo_manager HMongo "user-2"
              (world env (users 3) []) eq_refl Huniq)
    as (answer & w' & Hget & _ & Hfound & _ & _ & Hdeleted).
  destruct (get_user_by_id_record_or_none mongo_manager HMongo "user-9"
              (world env (users 3) []) eq_refl Huniq)
    as (answer9 & w9 & Hget9 & _ & _ & Hnone & _ & _).
  rewrite Hget, Hget9. cbn [fst].
  split.
  { f_equal. apply Hfound; [|reflexivity].
    apply list_elem_of_In. right. left. reflexivity. }
  split; [f_equal; apply Hnone|exact Hdeleted].
  apply (proj1 (Forall_forall _ _)), (bool_decide_unpack _).
  vm_compute. exact I.
Defined.

End Examples.

(** * Further properties of the facade *)

(** ** Frame conditions *)

Section ConfinedFacts.
Context {C : Type} `{!Collection C}.
Context (H : Handle → Prop) (P : Call → Prop).
Implicit Types (w : World C) (self : DatabaseManager).

Local Abbreviation kept := (confined (C:=C) H P).

Lemma confined_unchanged {A} (m : M C A) :
  (∀ w, (m w).2 = w) → kept m.
Proof.
  intros Hm w. rewrite Hm. do 5 (split; [done|]).
  exists []. by rewrite app_nil_r.
Qed.

Lemma confined_ret {A} (a : A) : kept (ret a).
Proof. by apply confined_unchanged. Qed.

Lemma confined_raise {A} e : kept (raise (A:=A) e).
Proof. by apply confined_unchanged. Qed.

Lemma confined_getenv key : kept (getenv key).
Proof. by apply confined_unchanged. Qed.

Lemma confined_getenv_default key fallback :
  kept (getenv_default key fallback).
Proof. by apply confined_unchanged. Qed.

Lemma confined_then {A} (m : M C A) w w' :
  kept m → (m w).2 = w' →
  ∀ {B} (k : M C B),
    kept k →
    environ (k w').2 = environ w
    ∧ setup_fault (k w').2 = setup_fault w
    ∧ uuid_source (k w').2 = uuid_source w
    ∧ uuid_calls (k w').2 = uuid_calls w
    ∧ (∀ h, ¬ H h → users_of h (k w').2 = users_of h w)
    ∧ ∃ calls, trace (k w').2 = trace w ++ calls ∧ Forall P calls.
Proof.
  intros Hm <- B k Hk.
  destruct (Hm w) as (He & Hf & Hs & Hu & Hc & l1 & Ht & Hl1).
  destruct (Hk (m w).2) as (He' & Hf' & Hs' & Hu' & Hc' & l2 & Ht' & Hl2).
  split; [congruence|]. split; [congruence|]. split; [congruence|].
  split; [congruence|]. split.
  - intros h Hh. by rewrite Hc', Hc.
  - exists (l1 ++ l2). split; [by rewrite Ht', Ht, app_assoc|by apply Forall_app].
Qed.

(** Sequencing, when the continuation is confined for the values the first
    part can return. *)
Lemma confined_bind_post {A B} (Q : A → Prop) (m : M C A) (k : A → M C B) :
  kept m →
  (∀ w a w', m w = (Ok a, w') → Q a) →
  (∀ a, Q a → kept (k a)) →
  kept (bind m k).
Proof.
  intros Hm HQ Hk w. unfold bind.
  destruct (m w) as [[a|e] w'] eqn:Hrun.
  - apply (confined_then m w w' Hm); [by rewrite Hrun|]. eapply Hk, HQ, Hrun.
  - specialize (Hm w). by rewrite Hrun in Hm.
Qed.

Lemma confined_bind {A B} (m : M C A) (k : A → M C B) :
  kept m → (∀ a, kept (k a)) → kept (bind m k).
Proof.
  intros Hm Hk. by apply (confined_bind_post (λ _, True)).
Qed.

Lemma confined_try_except {A} (m : M C A) (handler : exn → M C A) :
  kept m → (∀ e, kept (handler e)) →
  kept (try_except m handler).
Proof.
  intros Hm Hk w. unfold try_except.
  destruct (m w) as [[a|e] w'] eqn:Hrun.
  - specialize (Hm w). by rewrite Hrun in Hm.
  - apply (confined_then m w w' Hm); [by rewrite Hrun|]. apply Hk.
Qed.

Lemma confined_record_call c w :
  P c →
  environ (record_call c w) = environ w
  ∧ setup_fault (record_call c w) = setup_fault w
  ∧ uuid_source (record_call c w) = uuid_source w
  ∧ uuid_calls (record_call c w) = uuid_calls w
  ∧ (∀ h, ¬ H h → users_of h (record_call c w) = users_of h w)
  ∧ ∃ calls, trace (record_call c w) = trace w ++ calls ∧ Forall P calls.
Proof.
  intros Hc. do 4 (split; [done|]).
  split; [by intros; apply users_of_record_call|].
  exists [c]. split; [done|]. by apply Forall_singleton.
Qed.

Lemma confined_sdk c : P (Setup c) → kept (sdk c).
Proof.
  intros Hc w. unfold sdk.
  destruct (setup_fault w c); by apply confined_record_call.
Qed.

Lemma confined_coll_find self :
  (∀ h, collection self = Some h → P (Find h)) → kept (coll_find self).
Proof.
  intros Hc. unfold coll_find. destruct (collection self) as [h|].
  - intros w. apply confined_record_call. by apply Hc.
  - apply confined_raise.
Qed.

Lemma confined_coll_insert_many self docs :
  (∀ h, collection self = Some h → H h ∧ P (InsertMany h docs)) →
  kept (coll_insert_many self docs).
Proof.
  intros Hc. unfold coll_insert_many. destruct (collection self) as [h|].
  - destruct (Hc h eq_refl) as [Hh Hcall]. intros w.
    destruct (confined_record_call (InsertMany h docs) w Hcall)
      as (He & Hf & Hs & Hu & Hst & l & Ht & Hl).
    destruct (insert_many docs _) as [r c]. cbn [snd].
    do 4 (split; [by destruct h|]). split.
    + intros h' Hh'. rewrite users_of_set_users_ne by congruence. by apply Hst.
    + exists l. by rewrite trace_set_users.
  - apply confined_raise.
Qed.

(** The three setup procedures talk to their own backend only. *)
Lemma confined_setup_mongodb self :
  (∀ s, backend_of s = HMongo → P (Setup s)) →
  kept (_setup_mongodb self).
Proof.
  intros HP. unfold _setup_mongodb.
  repeat (apply confined_bind; [|intros ?]);
    auto using confined_getenv_default, confined_sdk, confined_ret.
Qed.

Lemma confined_setup_astra self :
  (∀ s, backend_of s = HAstra → P (Setup s)) →
  kept (_setup_astra self).
Proof.
  intros HP. unfold _setup_astra.
  repeat (apply confined_bind; [|intros ?]);
    auto using confined_getenv_default, confined_getenv.
  destruct (negb _); [apply confined_raise|].
  repeat (apply confined_bind; [|intros ?]);
    auto using confined_sdk, confined_ret.
Qed.

Lemma confined_setup_hcd self :
  (∀ s, backend_of s = HHcd → P (Setup s)) →
  kept (_setup_hcd self).
Proof.
  intros HP. unfold _setup_hcd.
  repeat (apply confined_bind; [|intros ?]);
    auto using confined_getenv_default, confined_getenv.
  destruct (negb _); [apply confined_raise|].
  repeat (apply confined_bind; [|intros ?]);
    auto using confined_sdk, confined_ret;
    apply confined_try_except; intros; auto using confined_sdk, confined_ret.
Qed.

Lemma confined_setup_connection self :
  (∀ s, handle_of_selector (db_type self) = Some (backend_of s) → P (Setup s)) →
  kept (_setup_connection self).
Proof.
  unfold _setup_connection, handle_of_selector. intros HP.
  destruct (String.eqb _ "mongodb");
    [apply confined_setup_mongodb; intros s Hs; apply HP; by rewrite Hs|].
  destruct (String.eqb _ "hcd");
    [apply confined_setup_hcd; intros s Hs; apply HP; by rewrite Hs|].
  destruct (String.eqb _ "astra");
    [apply confined_setup_astra; intros s Hs; apply HP; by rewrite Hs|].
  apply confined_raise.
Qed.

End ConfinedFacts.

(** ** Construction *)

Section ConstructionFacts.
Context {C : Type} `{!Collection C}.
Implicit Types (w : World C) (self : DatabaseManager).

Lemma setup_mongodb_ok self w m w' :
  _setup_mongodb self w = (Ok m, w') → m = with_collection self HMongo.
Proof.
  unfold _setup_mongodb, bind, getenv_default, sdk, ret.
  destruct (setup_fault w _); [done|]. cbn.
  destruct (setup_fault w _); cbn; congruence.
Qed.

Lemma setup_astra_ok self w m w' :
  _setup_astra self w = (Ok m, w') → m = with_collection self HAstra.
Proof.
  unfold _setup_astra, bind, getenv, getenv_default, sdk, ret, raise.
  destruct (negb _); [done|].
  destruct (setup_fault w _); [done|]. cbn.
  destruct (setup_fault w _); cbn; congruence.
Qed.

(** A manager that construction returns carries the configured selector
    and is bound to the collection of that selector. *)
Lemma init_ok w m w' :
  __init__ w = (Ok m, w') →
  db_type m = default "mongodb" (environ w !! "DATABASE_TYPE")
  ∧ ∃ h, handle_of_selector (db_type m) = Some h ∧ collection m = Some h.
Proof.
  unfold __init__, bind, getenv_default. cbn [fst snd].
  unfold _setup_connection, handle_of_selector. cbn [db_type].
  set (t := default "mongodb" (environ w !! "DATABASE_TYPE")).
  destruct (String.eqb t "mongodb") eqn:E1;
    [intros ->%setup_mongodb_ok; cbn; rewrite E1; split; [done|by exists HMongo]|].
  destruct (String.eqb t "hcd") eqn:E2;
    [intros ->%setup_hcd_ok; cbn; rewrite E1, E2; split; [done|by exists HHcd]|].
  destruct (String.eqb t "astra") eqn:E3;
    [intros ->%setup_astra_ok; cbn; rewrite E1, E2, E3; split;
       [done|by exists HAstra]|].
  done.
Qed.

(** X1.  Whatever the environment and the services do, construction
    leaves the environment, the identifier counter and the three collections
    as they are.  For a supported selector it only makes connection calls to
    the backend of that selector, and a manager it returns carries the
    selector and is bound to that backend's collection; for any other
    selector it raises without a single call. *)
Theorem construction_connects_selected_backend_only w :
  let selector := default "mongodb" (environ w !! "DATABASE_TYPE") in
  environ (__init__ w).2 = environ w
  ∧ uuid_calls (__init__ w).2 = uuid_calls w
  ∧ (∀ h, users_of h (__init__ w).2 = users_of h w)
  ∧ match handle_of_selector selector with
    | Some h =>
        (∃ calls, trace (__init__ w).2 = trace w ++ calls
                  ∧ Forall (setup_call_of h) calls)
        ∧ ∀ m, (__init__ w).1 = Ok m →
               db_type m = selector ∧ collection m = Some h
    | None =>
        __init__ w
        = (Raise (ValueError ("Unsupported database type: " +:+ selector)), w)
    end.
Proof.
  intros selector.
  assert (__init__ w
          = _setup_connection {| db_type := selector; collection := None |} w)
    as Hinit by done.
  destruct (handle_of_selector selector) as [h|] eqn:Hsel.
  - assert (confined (C:=C) (λ _, False) (setup_call_of h)
              (_setup_connection {| db_type := selector; collection := None |}))
      as Hconf.
    { apply confined_setup_connection. cbn [db_type]. rewrite Hsel.
      by intros s [= ->]. }
    pose proof (Hconf w) as Hw. rewrite <- Hinit in Hw.
    destruct Hw as (He & _ & _ & Hu & Hst & Hcalls).
    split; [done|]. split; [done|]. split; [intros h'; apply Hst; tauto|].
    split; [done|]. intros m Hm.
    destruct (__init__ w) as [r w'] eqn:Hrun. cbn in Hm. subst r.
    destruct (init_ok _ _ _ Hrun) as (Ht & h' & Hh' & Hc).
    fold selector in Ht. rewrite Ht, Hsel in Hh'. by injection Hh' as <-.
  - assert (__init__ w
            = (Raise (ValueError ("Unsupported database type: " +:+ selector)), w))
      as Hfail.
    { rewrite Hinit. unfold handle_of_selector in Hsel.
      apply setup_connection_unsupported; cbn [db_type]; intros Heq;
        rewrite Heq in Hsel; done. }
    by rewrite Hfail.
Qed.

(** X2.  [get_database_info] of a manager that construction returned names
    the configured selector, which is one of the three supported ones, and
    says "connected"; it never asks the connection. *)
Theorem database_info_after_construction w m w' :
  __init__ w = (Ok m, w') →
  get_database_info m
  = {[ "type" := default "mongodb" (environ w !! "DATABASE_TYPE");
       "status" := "connected" ]}
  ∧ (db_type m = "mongodb" ∨ db_type m = "hcd" ∨ db_type m = "astra").
Proof.
  intros (Ht & h & Hh & _)%init_ok. unfold get_database_info. rewrite Ht.
  split; [done|]. rewrite <- Ht. unfold handle_of_selector in Hh.
  destruct (String.eqb_spec (db_type m) "mongodb"); [by left|].
  destruct (String.eqb_spec (db_type m) "hcd"); [by right; left|].
  destruct (String.eqb_spec (db_type m) "astra"); [by right; right|done].
Qed.

(** X3.  With the three HCD settings present, the setup of HCD succeeds
    exactly when the database handle is obtained and the "users" collection
    is either created or, failing that, fetched.  A failure to create the
    keyspace never shows, and a failure to create the collection shows only
    through the error of the fetch that follows it. *)
Theorem setup_hcd_suppresses_creation_failures self w :
  configured (environ w !! "HCD_API_ENDPOINT")
  && configured (environ w !! "HCD_USERNAME")
  && configured (environ w !! "HCD_PASSWORD") = true →
  let connect :=
    HcdGetDatabase (setting (environ w !! "HCD_API_ENDPOINT"))
      (setting (environ w !! "HCD_USERNAME"))
      (setting (environ w !! "HCD_PASSWORD")) in
  let keyspace :=
    HcdCreateKeyspace (default "default_keyspace" (environ w !! "HCD_KEYSPACE")) in
  let create := HcdCreateCollection "users" in
  let fetch := HcdGetCollection "users" in
  match setup_fault w connect with
  | Some msg =>
      (_setup_hcd self w).1 = Raise (DriverError msg)
      ∧ trace (_setup_hcd self w).2 = trace w ++ [Setup connect]
  | None =>
      match setup_fault w create, setup_fault w fetch with
      | None, _ =>
          (_setup_hcd self w).1 = Ok (with_collection self HHcd)
          ∧ trace (_setup_hcd self w).2
            = trace w ++ [Setup connect; Setup keyspace; Setup create]
      | Some _, None =>
          (_setup_hcd self w).1 = Ok (with_collection self HHcd)
          ∧ trace (_setup_hcd self w).2
            = trace w ++ [Setup connect; Setup keyspace; Setup create; Setup fetch]
      | Some _, Some msg =>
          (_setup_hcd self w).1 = Raise (DriverError msg)
          ∧ trace (_setup_hcd self w).2
            = trace w ++ [Setup connect; Setup keyspace; Setup create; Setup fetch]
      end
  end.
Proof.
  intros Hcfg connect keyspace create fetch.
  unfold _setup_hcd, bind, getenv, getenv_default, try_except, sdk, ret, raise.
  cbn [fst snd]. rewrite Hcfg. cbn [negb].
  fold connect keyspace create fetch.
  destruct (setup_fault w connect); [done|]. cbn [setup_fault record_call].
  destruct (setup_fault w keyspace); cbn [setup_fault record_call];
    (destruct (setup_fault w create); cbn [setup_fault record_call];
     [destruct (setup_fault w fetch)|]);
    cbn [fst snd trace record_call]; by rewrite <- ?app_assoc.
Qed.


End ConstructionFacts.

(** ** Single-record operations over the reference collection *)

Section ReferenceOperations.
Implicit Types (w : World Mem.t) (self : DatabaseManager) (doc : Dict).

Lemma mem_insert_one_ok doc c c' key :
  doc !! "_id" = Some key →
  Mem.insert_one doc c = (Ok (), c') →
  Mem.docs c' = Mem.docs c ++ [doc]
  ∧ ∀ d, d ∈ Mem.docs c → d !! "_id" ≠ Some key.
Proof.
  intros Hkey. unfold Mem.insert_one. rewrite Hkey.
  destruct (existsb _ _) eqn:Hex; [done|]. intros [= <-]. split; [done|].
  by apply mem_existsb_has_id_false.
Qed.

Lemma mem_insert_one_taken doc c key :
  doc !! "_id" = Some key →
  (∃ d, d ∈ Mem.docs c ∧ d !! "_id" = Some key) →
  Mem.insert_one doc c = (Raise Mem.duplicate_key, c).
Proof.
  intros Hkey Htaken%mem_existsb_has_id. unfold Mem.insert_one.
  rewrite Hkey, Htaken. by destruct c.
Qed.

Lemma mem_remove_first_last key (l : list Dict) doc :
  (∀ d, d ∈ l → d !! "_id" ≠ Some key) →
  doc !! "_id" = Some key →
  Mem.remove_first key (l ++ [doc]) = l.
Proof.
  intros Hl Hdoc. induction l as [|d l IH]; cbn [app Mem.remove_first].
  - by rewrite (proj2 (mem_has_id_true key doc) Hdoc).
  - destruct (Mem.has_id key d) eqn:Hd.
    + apply mem_has_id_true in Hd. destruct (Hl d); [by left|done].
    + rewrite IH; [done|]. intros d' Hd'. apply Hl. by right.
Qed.

(** What a [create_user] that returns has done to the collection. *)
Lemma create_user_ok_mem self h user_data w stored returned w' :
  collection self = Some h →
  create_user self user_data w = (stored, Ok returned, w') →
  returned = stored
  ∧ is_Some (stored !! "_id")
  ∧ Mem.docs (users_of h w') = Mem.docs (users_of h w) ++ [stored]
  ∧ (∀ d, d ∈ Mem.docs (users_of h w) → d !! "_id" ≠ stored !! "_id")
  ∧ (∀ h', h' ≠ h → users_of h' w' = users_of h' w).
Proof.
  intros Hc. rewrite (create_user_eq _ h) by done. cbn zeta.
  set (doc := if lacks_id user_data then _ else _).
  assert (is_Some (doc !! "_id")) as [key Hkey].
  { unfold doc. destruct (lacks_id user_data) eqn:Hlacks;
      [by rewrite lookup_insert_eq|].
    unfold lacks_id in Hlacks. by destruct (user_data !! "_id"). }
  cbn [insert_one Mem_Collection].
  destruct (Mem.insert_one doc (users_of h w)) as [[[]|e] c'] eqn:Hins; [|done].
  cbn [fst snd]. intros [= <- <- <-].
  destruct (mem_insert_one_ok _ _ _ _ Hkey Hins) as [Hdocs Hfree].
  split; [done|]. split; [by exists key|].
  rewrite users_of_set_users. split; [done|]. split; [by rewrite Hkey|].
  intros h' Hh'. rewrite users_of_set_users_ne by done.
  rewrite users_of_record_call. by destruct (lacks_id user_data).
Qed.

(** X5.  A record that [create_user] has stored under a string key is what
    [get_user_by_id] returns for that key afterwards; the collection holds
    the records it held before followed by the new one, and its keys are
    still unique. *)
Theorem create_user_then_get_user_by_id self h user_data w stored returned w' :
  collection self = Some h →
  Mem.unique_ids (users_of h w) →
  create_user self user_data w = (stored, Ok returned, w') →
  returned = stored
  ∧ Mem.docs (users_of h w') = Mem.docs (users_of h w) ++ [stored]
  ∧ Mem.unique_ids (users_of h w')
  ∧ ∀ key, stored !! "_id" = Some (VStr key) →
           (get_user_by_id self key w').1 = Ok (Some stored).
Proof.
  intros Hc [Hnd Hids] Hcreate.
  destruct (create_user_ok_mem _ _ _ _ _ _ _ Hc Hcreate)
    as (Hret & Hid & Hdocs & Hfree & _).
  assert (Mem.unique_ids (users_of h w')) as Huniq.
  { split; rewrite Hdocs.
    - rewrite map_app. apply NoDup_app. split; [done|]. split.
      + intros id (d & -> & Hd)%list_elem_of_fmap. cbn [map].
        intros Heq%list_elem_of_singleton. by apply (Hfree d).
      + apply NoDup_singleton.
    - apply Forall_app. split; [done|]. by apply Forall_singleton. }
  split; [done|]. split; [done|]. split; [done|].
  intros key Hkey. unfold get_user_by_id.
  rewrite (coll_find_one_eq _ h) by done.
  cbn [fst find_one Mem_Collection]. unfold Mem.find_one. f_equal.
  apply mem_find_present; [apply Huniq| |done].
  rewrite Hdocs. apply elem_of_app. right. by apply list_elem_of_singleton.
Qed.

(** X6.  [create_user] with a truthy key that a stored record already
    carries raises the duplicate-key error of the insert.  The collection is
    left exactly as it was, so nothing is overwritten, and no identifier is
    drawn. *)
Theorem create_user_rejects_taken_key self h user_data key w :
  collection self = Some h →
  user_data !! "_id" = Some key →
  truthy key = true →
  (∃ d, d ∈ Mem.docs (users_of h w) ∧ d !! "_id" = Some key) →
  ∃ w',
    create_user self user_data w = (user_data, Raise Mem.duplicate_key, w')
    ∧ (∀ h', users_of h' w' = users_of h' w)
    ∧ uuid_calls w' = uuid_calls w
    ∧ trace w' = trace w ++ [InsertOne h user_data]
    ∧ ∀ user_id,
        (get_user_by_id self user_id w').1 = (get_user_by_id self user_id w).1.
Proof.
  intros Hc Hkey Htruthy Htaken. rewrite (create_user_eq _ h) by done.
  assert (lacks_id user_data = false) as ->.
  { unfold lacks_id. by rewrite Hkey, Htruthy. }
  cbn zeta. cbn [insert_one Mem_Collection].
  rewrite (mem_insert_one_taken _ _ _ Hkey Htaken). cbn [fst snd].
  eexists. split; [reflexivity|].
  assert (∀ h', users_of h'
            (set_users h (users_of h w) (record_call (InsertOne h user_data) w))
          = users_of h' w) as Hsame.
  { intros h'. destruct (decide (h = h')) as [<-|Hne].
    - by rewrite users_of_set_users.
    - by rewrite users_of_set_users_ne, users_of_record_call. }
  split; [done|]. split; [by rewrite uuid_calls_set_users|].
  split; [by rewrite trace_set_users|].
  intros user_id. unfold get_user_by_id.
  rewrite !(coll_find_one_eq _ h) by done. cbn [fst].
  by rewrite Hsame.
Qed.

(** X7.  Deleting the key of a record that [create_user] has just stored
    returns [True] and gives back the collection as it was before the
    insert. *)
Theorem create_user_then_delete_user self h user_data w stored returned w' key :
  collection self = Some h →
  create_user self user_data w = (stored, Ok returned, w') →
  stored !! "_id" = Some (VStr key) →
  ∃ w'',
    delete_user self key w' = (Ok true, w'')
    ∧ Mem.docs (users_of h w'') = Mem.docs (users_of h w)
    ∧ ∀ h', h' ≠ h → users_of h' w'' = users_of h' w.
Proof.
  intros Hc Hcreate Hkey.
  destruct (create_user_ok_mem _ _ _ _ _ _ _ Hc Hcreate)
    as (_ & _ & Hdocs & Hfree & Hother).
  rewrite (delete_user_mem _ h) by done.
  assert (existsb (Mem.has_id (VStr key)) (Mem.docs (users_of h w')) = true)
    as Hex.
  { apply mem_existsb_has_id. exists stored. split; [|done].
    rewrite Hdocs. apply elem_of_app. right. by apply list_elem_of_singleton. }
  rewrite Hex. eexists. split; [reflexivity|]. split.
  - rewrite users_of_set_users. unfold Mem.delete_one. rewrite Hex.
    cbn [snd Mem.docs]. rewrite Hdocs. apply mem_remove_first_last; [|done].
    intros d Hd. rewrite <- Hkey. by apply Hfree.
  - intros h' Hh'. rewrite users_of_set_users_ne by done.
    rewrite users_of_record_call. by apply Hother.
Qed.

End ReferenceOperations.

(** ** Listing the records *)

Section ListingFacts.
Context {C : Type} `{!Collection C}.
Implicit Types (w : World C) (self : DatabaseManager).

(** X8.  [get_all_users] on a facade bound to a collection asks that
    collection once for an unfiltered scan and makes no other call, and no
    collection changes.  It returns a list exactly when the cursor was read
    to its end, and the list then holds the documents of the cursor in the
    order of the cursor, whatever that order is.  It raises exactly when the
    scan raised, at once or after yielding documents; the documents read
    before the failure are not returned. *)
Theorem get_all_users_all_or_nothing self h w :
  collection self = Some h →
  trace (get_all_users self w).2 = trace w ++ [Find h]
  ∧ (∀ h', users_of h' (get_all_users self w).2 = users_of h' w)
  ∧ (∀ docs, (get_all_users self w).1 = Ok docs
             ↔ find (users_of h w) = Ok (docs, None))
  ∧ (∀ e, (get_all_users self w).1 = Raise e
          ↔ find (users_of h w) = Raise e
            ∨ ∃ docs, find (users_of h w) = Ok (docs, Some e)).
Proof.
  intros Hc. unfold get_all_users, bind, coll_find. rewrite Hc.
  rewrite users_of_record_call.
  destruct (find (users_of h w)) as [[docs [e0|]]|e0]; cbn [fst snd ret raise].
  - split; [done|]. split; [intros h'; apply users_of_record_call|]. split.
    + intros docs'. split; intros [=].
    + intros e. split.
      * intros [= ->]. right. by exists docs.
      * intros [[=]|[docs' [= _ ->]]]. done.
  - split; [done|]. split; [intros h'; apply users_of_record_call|]. split.
    + intros docs'. split; by intros [= ->].
    + intros e. split; [intros [=]|]. intros [[=]|[docs' [=]]].
  - split; [done|]. split; [intros h'; apply users_of_record_call|]. split.
    + intros docs'. split; intros [=].
    + intros e. split.
      * intros [= ->]. by left.
      * intros [[= ->]|[docs' [=]]]. done.
Qed.

End ListingFacts.

(** ** More on the migration *)

Section MigrationFacts.
Context {C : Type} `{!Collection C}.
Implicit Types (w : World C) (self : DatabaseManager).

Lemma confined_insert_batch hm st :
  collection hm = Some HHcd →
  confined (C:=C) (λ h, h = HHcd) migration_call (insert_batch hm st).
Proof.
  intros Hc. unfold insert_batch.
  apply confined_try_except; [|intros e; apply confined_ret].
  apply confined_bind; [|intros []; apply confined_ret].
  apply confined_coll_insert_many. intros h Hh.
  rewrite Hc in Hh. by injection Hh as <-.
Qed.

Lemma confined_sync_loop hm cursor st :
  collection hm = Some HHcd →
  confined (C:=C) (λ h, h = HHcd) migration_call (sync_loop hm cursor st).
Proof.
  intros Hc. revert st. induction cursor as [|user cursor IH]; intros st.
  - apply confined_ret.
  - cbn [sync_loop]. destruct (_ =? _); [|apply IH].
    apply confined_bind; [by apply confined_insert_batch|]. intros st'. apply IH.
Qed.

Lemma confined_temporary_hcd_manager :
  confined (C:=C) (λ h, h = HHcd) migration_call temporary_hcd_manager.
Proof.
  unfold temporary_hcd_manager, __init__.
  apply confined_bind; [|intros m; by apply confined_setup_hcd].
  apply confined_bind; [apply confined_getenv_default|].
  intros t. by apply confined_setup_connection.
Qed.

Lemma confined_sync_body self :
  confined (C:=C) (λ h, h = HHcd) migration_call (sync_body self).
Proof.
  unfold sync_body.
  apply confined_bind; [by apply confined_coll_find|]. intros cursor.
  apply (confined_bind_post _ _ (λ hm, collection hm = Some HHcd));
    [apply confined_temporary_hcd_manager
    |by intros w hm w' [? _]%temporary_hcd_manager_ok|].
  intros hm Hc.
  apply confined_bind; [by apply confined_sync_loop|]. intros st.
  apply confined_bind.
  { destruct cursor.2; [apply confined_raise|apply confined_ret]. }
  intros _. destruct (batch st); [apply confined_ret|by apply confined_insert_batch].
Qed.

(** X9.  Whatever the facade, the environment and the services, a
    migration draws no identifier, leaves the environment, the MongoDB
    collection and the Astra collection as they are, and makes no call
    other than connection calls, [find] and [insert_many] on the HCD
    collection: the source is only read. *)
Theorem migrate_only_writes_to_hcd self w :
  environ (sync_mongodb_to_hcd self w).2 = environ w
  ∧ uuid_calls (sync_mongodb_to_hcd self w).2 = uuid_calls w
  ∧ mongo_users (sync_mongodb_to_hcd self w).2 = mongo_users w
  ∧ astra_users (sync_mongodb_to_hcd self w).2 = astra_users w
  ∧ ∃ calls,
      trace (sync_mongodb_to_hcd self w).2 = trace w ++ calls
      ∧ Forall migration_call calls.
Proof.
  assert (confined (C:=C) (λ h, h = HHcd) migration_call
            (sync_mongodb_to_hcd self)) as Hconf.
  { unfold sync_mongodb_to_hcd. destruct (negb _); [apply confined_ret|].
    apply confined_try_except; [|intros e; apply confined_ret].
    apply confined_bind; [apply confined_sync_body|].
    intros st. apply confined_ret. }
  destruct (Hconf w) as (He & _ & _ & Hu & Hst & Hcalls).
  split; [done|]. split; [done|].
  split; [by apply (Hst HMongo)|]. split; [by apply (Hst HAstra)|done].
Qed.

(** The full batches of a list. *)
Lemma full_batches_short {A} n (l : list A) :
  length l < n → full_batches n l = [].
Proof.
  intros Hl. unfold full_batches. destruct l as [|x l]; [done|].
  rewrite chunks_short; [|done|lia].
  rewrite filter_cons_False by lia. done.
Qed.

Lemma full_batches_full {A} n (b l : list A) :
  0 < n → length b = n → full_batches n (b ++ l) = b :: full_batches n l.
Proof.
  intros Hn Hb. unfold full_batches. rewrite chunks_full by done.
  by rewrite filter_cons_True.
Qed.

Lemma full_batches_sizes {A} n (l : list A) :
  Forall (λ b, length b = n) (full_batches n l).
Proof.
  unfold full_batches. apply Forall_forall.
  by intros b [Hb _]%list_elem_of_filter.
Qed.

(** The loop alone submits the full batches and keeps the rest in [batch]. *)
Lemma sync_loop_full_batches hm hd users :
  collection hm = Some hd →
  ∀ tot errs w,
  ∃ st',
    sync_loop hm users {| batch := []; total_synced := tot; errors := errs |} w
    = (Ok st', (submit_batches hd (full_batches batch_size users) w).2)
    ∧ users = concat (full_batches batch_size users) ++ batch st'
    ∧ length (batch st') < batch_size.
Proof.
  intros Hc. pattern users. revert users.
  apply (batches_ind (A:=Dict) batch_size);
    [unfold batch_size; lia|intros l Hl|intros b l Hb IH];
    intros tot errs w.
  - rewrite full_batches_short by done.
    pose proof (sync_loop_acc hm l [] [] tot errs w) as Hacc.
    rewrite app_nil_r in Hacc. rewrite Hacc by (simpl; lia).
    eexists. split; [reflexivity|]. by split.
  - rewrite full_batches_full by (done || unfold batch_size; lia).
    destruct (nil_or_length_pos b) as [->|Hpos]; [done|].
    destruct b as [|x b _] using rev_ind; [simpl in Hpos; lia|].
    rewrite length_app in Hb. simpl in Hb.
    rewrite <- !app_assoc.
    rewrite sync_loop_acc by (simpl; lia).
    cbn [app sync_loop]. unfold append_user. cbn [batch total_synced errors].
    replace (length (b ++ [x]) =? batch_size) with true
      by (symmetry; apply Nat.eqb_eq; rewrite length_app; simpl; lia).
    unfold bind at 1. rewrite insert_batch_eq with (hd := hd) by done.
    cbn [submit_batches batch total_synced errors clear_batch concat].
    destruct (insert_many _ _) as [[[]|e] c].
    + destruct (IH (tot + length (b ++ [x])) errs
                  (set_users hd c (record_call (InsertMany hd (b ++ [x])) w)))
        as (st' & Hrun & Husers & Hlen).
      exists st'.
      destruct (submit_batches hd (full_batches batch_size l) _) as [answers w3].
      cbn [snd] in *. split; [done|]. split; [|done].
      rewrite <- !app_assoc. cbn [app]. by rewrite <- Husers.
    + destruct (IH tot (errs ++ map (error_entry e) (b ++ [x]))
                  (set_users hd c (record_call (InsertMany hd (b ++ [x])) w)))
        as (st' & Hrun & Husers & Hlen).
      exists st'.
      destruct (submit_batches hd (full_batches batch_size l) _) as [answers w3].
      cbn [snd] in *. split; [done|]. split; [|done].
      rewrite <- !app_assoc. cbn [app]. by rewrite <- Husers.
Qed.

(** X10.  When the cursor raises after yielding [users], the migration
    reports "Sync failed: " with the text of the exception.  By then every
    full batch of 100 among the records read has been submitted to HCD, once
    each, and stays there; the records read after the last full batch were
    never submitted and appear in no report. *)
Theorem migrate_interrupted_keeps_full_batches self w users e w1 hm w2 :
  db_type self = "mongodb" →
  coll_find self w = (Ok (users, Some e), w1) →
  temporary_hcd_manager w1 = (Ok hm, w2) →
  let sent := full_batches batch_size users in
  sync_mongodb_to_hcd self w
  = (Ok (failure_report ("Sync failed: " +:+ exn_str e)),
     (submit_batches HHcd sent w2).2)
  ∧ trace (submit_batches HHcd sent w2).2
    = trace w2 ++ map (InsertMany HHcd) sent
  ∧ Forall (λ b, length b = batch_size) sent
  ∧ ∃ rest, users = concat sent ++ rest ∧ length rest < batch_size.
Proof.
  intros Hdb Hfind Hsetup sent.
  destruct (temporary_hcd_manager_ok _ _ _ Hsetup) as [Hc _].
  destruct (sync_loop_full_batches hm HHcd users Hc 0 [] w2)
    as (st & Hloop & Husers & Hlen).
  fold sent in Hloop, Husers.
  split.
  - rewrite (sync_from_mongodb _ _ Hdb). unfold sync_body, bind at 1.
    rewrite Hfind. unfold bind at 1. rewrite Hsetup. cbn [fst snd].
    unfold bind at 1. by rewrite Hloop.
  - split; [apply submit_batches_trace|].
    split; [apply full_batches_sizes|]. by exists (batch st).
Qed.

(** X11.  When the temporary HCD manager cannot be set up, the migration
    reports "Sync failed: " with the text of the exception and no collection
    has changed. *)
Theorem migrate_without_destination_changes_nothing self w cursor w1 e w2 :
  db_type self = "mongodb" →
  coll_find self w = (Ok cursor, w1) →
  temporary_hcd_manager w1 = (Raise e, w2) →
  sync_mongodb_to_hcd self w
  = (Ok (failure_report ("Sync failed: " +:+ exn_str e)), w2)
  ∧ ∀ h, users_of h w2 = users_of h w.
Proof.
  intros Hdb Hfind Hsetup. split.
  - rewrite (sync_from_mongodb _ _ Hdb). unfold sync_body, bind at 1.
    rewrite Hfind. unfold bind at 1. by rewrite Hsetup.
  - intros h.
    pose proof (stores_kept_temporary_hcd_manager w1 h) as H2.
    pose proof (stores_kept_coll_find self w h) as H1.
    rewrite Hsetup in H2. rewrite Hfind in H1. cbn [snd] in *. by rewrite H2.
Qed.

Lemma submit_batches_other hd bs w h :
  h ≠ hd → users_of h (submit_batches hd bs w).2 = users_of h w.
Proof.
  intros Hne. revert w. induction bs as [|b bs IH]; intros w; [done|].
  cbn [submit_batches]. destruct (insert_many _ _) as [r c].
  specialize (IH (set_users hd c (record_call (InsertMany hd b) w))).
  destruct (submit_batches hd bs _) as [answers w3]. cbn [snd] in *.
  by rewrite IH, users_of_set_users_ne, users_of_record_call.
Qed.

End MigrationFacts.

(** ** Migration into the reference collection *)

Section ReferenceMigration.
Implicit Types (w : World Mem.t) (self : DatabaseManager) (doc : Dict).

(** A record of [users] is present in [c] when it carries an [_id] that a
    stored record carries too. *)
Lemma mem_insert_many_present (b : list Dict) c :
  b ≠ [] →
  Forall (λ doc, is_Some (doc !! "_id")
                 ∧ Exists (λ d : Dict, d !! "_id" = doc !! "_id") (Mem.docs c)) b →
  Mem.insert_many b c = (Raise (DriverError "batch op errors occurred"), c).
Proof.
  destruct b as [|doc b]; [done|]. intros _ [[[key Hkey] Hex] _]%Forall_cons.
  unfold Mem.insert_many. cbn [Mem.insert_each].
  rewrite (mem_insert_one_taken doc c key); [done..|].
  apply Exists_exists in Hex as (d & Hd & Heq). exists d. by rewrite Heq.
Qed.

Lemma mem_submit_present hd (bs : list (list Dict)) w :
  Forall (λ b, b ≠ []) bs →
  Forall (λ doc, is_Some (doc !! "_id")
                 ∧ Exists (λ d : Dict, d !! "_id" = doc !! "_id")
                     (Mem.docs (users_of hd w))) (concat bs) →
  (submit_batches hd bs w).1
  = map (λ _, Some (DriverError "batch op errors occurred")) bs
  ∧ users_of hd (submit_batches hd bs w).2 = users_of hd w.
Proof.
  revert w. induction bs as [|b bs IH]; intros w Hne Hpresent; [done|].
  apply Forall_cons in Hne as [Hb Hne].
  cbn [concat] in Hpresent. apply Forall_app in Hpresent as [Hpb Hpresent].
  cbn [submit_batches]. rewrite users_of_record_call.
  cbn [insert_many Mem_Collection].
  rewrite mem_insert_many_present by done.
  match goal with |- context [submit_batches hd bs ?w'] =>
    specialize (IH w' Hne); destruct (submit_batches hd bs w') as [answers w3]
  end.
  rewrite users_of_set_users in IH. cbn [fst snd map] in *.
  destruct (IH Hpresent) as [-> ->]. done.
Qed.

Lemma synced_of_none bs e :
  synced_of bs (map (λ _, Some e) bs) = 0
  ∧ errors_of bs (map (λ _, Some e) bs) = map (error_entry e) (concat bs).
Proof.
  induction bs as [|b bs [IH1 IH2]]; [done|].
  cbn [map synced_of errors_of concat]. by rewrite map_app, IH1, IH2.
Qed.

(** X12.  A migration of records whose keys collide neither with each
    other nor with a key in HCD copies them without transformation: the HCD
    collection afterwards holds what it held before followed by the source
    records, unchanged and in cursor order.  The source collection is as
    before, every record is counted as synced and no error is reported. *)
Theorem migrate_copies_records_unchanged self w users w1 hm w2 :
  db_type self = "mongodb" →
  coll_find self w = (Ok (users, None), w1) →
  temporary_hcd_manager w1 = (Ok hm, w2) →
  Mem.no_collisions users (hcd_users w) →
  ∃ report w3,
    sync_mongodb_to_hcd self w = (Ok report, w3)
    ∧ Mem.docs (hcd_users w3) = Mem.docs (hcd_users w) ++ users
    ∧ mongo_users w3 = mongo_users w
    ∧ report !! "success" = Some (RBool true)
    ∧ report !! "synced_count" = Some (RInt (length users))
    ∧ report !! "errors" = Some (RStrs []).
Proof.
  intros Hdb Hfind Hsetup Hfresh.
  assert (0 < batch_size) as Hpos by (unfold batch_size; lia).
  destruct (sync_body_batches _ _ _ _ _ _ Hfind Hsetup) as (st & Hbody & Htot & Herrs).
  destruct (chunks_sizes batch_size users Hpos) as [Hsizes _].
  assert (∀ h, users_of h w2 = users_of h w) as Hstore.
  { intros h.
    pose proof (stores_kept_temporary_hcd_manager w1 h) as H2.
    pose proof (stores_kept_coll_find self w h) as H1.
    rewrite Hsetup in H2. rewrite Hfind in H1. cbn [snd] in *. by rewrite H2. }
  assert (Forall (λ b : list Dict, b ≠ []) (chunks batch_size users)) as Hne.
  { eapply Forall_impl; [exact Hsizes|]. intros b [Hb _] ->. simpl in Hb. lia. }
  assert (Mem.no_collisions (concat (chunks batch_size users)) (users_of HHcd w2))
    as Hfresh2 by (by rewrite chunks_concat, Hstore).
  rewrite (mem_submit_fresh _ _ _ Hne Hfresh2) in Htot, Herrs.
  destruct (synced_of_all (chunks batch_size users)) as [Hall Hnone].
  rewrite Hall, chunks_concat in Htot by done. rewrite Hnone in Herrs.
  destruct (sync_report_fields st) as (Hs & _ & Hn & He).
  eexists _, _. split; [by rewrite (sync_from_mongodb _ _ Hdb), Hbody|].
  split.
  { pose proof (mem_submit_fresh_docs HHcd _ w2 Hne Hfresh2) as Hdocs.
    rewrite chunks_concat, Hstore in Hdocs by done. exact Hdocs. }
  split.
  { pose proof (submit_batches_other HHcd (chunks batch_size users) w2 HMongo)
      as Hsrc.
    cbn [users_of] in Hsrc. rewrite Hsrc by done. apply (Hstore HMongo). }
  by rewrite Hs, Hn, He, Htot, Herrs.
Qed.

(** X13.  A migration of records that are all in HCD already, as after an
    earlier migration, syncs nothing: the HCD collection is left exactly as
    it was, the synced count is 0 and every record has an error entry, of
    which the report shows the first 5. *)
Theorem migrate_again_syncs_nothing self w users w1 hm w2 :
  db_type self = "mongodb" →
  coll_find self w = (Ok (users, None), w1) →
  temporary_hcd_manager w1 = (Ok hm, w2) →
  Forall (λ doc, is_Some (doc !! "_id")
                 ∧ Exists (λ d : Dict, d !! "_id" = doc !! "_id")
                     (Mem.docs (hcd_users w))) users →
  ∃ st w3,
    sync_body self w = (Ok st, w3)
    ∧ sync_mongodb_to_hcd self w = (Ok (sync_report st), w3)
    ∧ hcd_users w3 = hcd_users w
    ∧ total_synced st = 0
    ∧ errors st
      = map (error_entry (DriverError "batch op errors occurred")) users
    ∧ sync_report st !! "synced_count" = Some (RInt 0)
    ∧ sync_report st !! "errors"
      = Some (RStrs (take 5
           (map (error_entry (DriverError "batch op errors occurred")) users))).
Proof.
  intros Hdb Hfind Hsetup Hpresent.
  assert (0 < batch_size) as Hpos by (unfold batch_size; lia).
  destruct (sync_body_batches _ _ _ _ _ _ Hfind Hsetup) as (st & Hbody & Htot & Herrs).
  destruct (chunks_sizes batch_size users Hpos) as [Hsizes _].
  assert (users_of HHcd w2 = hcd_users w) as Hstore.
  { pose proof (stores_kept_temporary_hcd_manager w1 HHcd) as H2.
    pose proof (stores_kept_coll_find self w HHcd) as H1.
    rewrite Hsetup in H2. rewrite Hfind in H1. cbn [snd] in *. by rewrite H2, H1. }
  assert (Forall (λ b : list Dict, b ≠ []) (chunks batch_size users)) as Hne.
  { eapply Forall_impl; [exact Hsizes|]. intros b [Hb _] ->. simpl in Hb. lia. }
  destruct (mem_submit_present HHcd (chunks batch_size users) w2 Hne)
    as [Hanswers Hsame].
  { by rewrite chunks_concat, Hstore. }
  rewrite Hanswers in Htot, Herrs.
  destruct (synced_of_none (chunks batch_size users)
              (DriverError "batch op errors occurred")) as [Hzero Hall].
  rewrite Hzero in Htot. rewrite Hall, chunks_concat in Herrs by done.
  destruct (sync_report_fields st) as (_ & _ & Hn & He).
  exists st, (submit_batches HHcd (chunks batch_size users) w2).2.
  split; [done|]. split; [by rewrite (sync_from_mongodb _ _ Hdb), Hbody|].
  split; [cbn [users_of] in Hsame; by rewrite Hsame, <- Hstore|].
  split; [done|]. split; [done|]. by rewrite Hn, He, Htot, Herrs.
Qed.

End ReferenceMigration.

(** ** The further properties on sample data *)

Section MoreExamples.
Import Sample Failing.

Lemma run_result {C A} `{!Collection C} (m : M C A) (w : World C) a :
  (m w).1 = Ok a → m w = (Ok a, (m w).2).
Proof. destruct (m w) as [r w']. by intros [= ->]. Qed.

Lemma run_raises {C A} `{!Collection C} (m : M C A) (w : World C) e :
  (m w).1 = Raise e → m w = (Raise e, (m w).2).
Proof. destruct (m w) as [r w']. by intros [= ->]. Qed.

Lemma create_user_result {C} `{!Collection C} self user_data (w : World C) stored :
  (create_user self user_data w).1 = (stored, Ok stored) →
  create_user self user_data w
  = (stored, Ok stored, (create_user self user_data w).2).
Proof. destruct (create_user self user_data w) as [r w']. by intros [= ->]. Qed.

Lemma database_info_after_construction_witness :
  get_database_info mongo_manager
  = {[ "type" := "mongodb"; "status" := "connected" ]}
  ∧ (db_type mongo_manager = "mongodb" ∨ db_type mongo_manager = "hcd"
     ∨ db_type mongo_manager = "astra").
Proof.
  apply (database_info_after_construction (world env [] []) mongo_manager
           (__init__ (world env [] [])).2).
  apply (run_result __init__). vm_compute. reflexivity.
Defined.

Lemma setup_hcd_suppresses_creation_failures_witness :
  (_setup_hcd hcd_manager hcd_exists_world).1 = Ok hcd_manager
  ∧ trace (_setup_hcd hcd_manager hcd_exists_world).2
    = [Setup (HcdGetDatabase "http://localhost:8181" "cassandra" "cassandra");
       Setup (HcdCreateKeyspace "default_keyspace");
       Setup (HcdCreateCollection "users");
       Setup (HcdGetCollection "users")].
Proof.
  exact (setup_hcd_suppresses_creation_failures hcd_manager hcd_exists_world
           eq_refl).
Defined.


Lemma create_user_then_get_user_by_id_witness :
  let grace : Dict := {[ "_id" := VStr "user-9"; "name" := VStr "Grace" ]} in
  let created := create_user mongo_manager grace (world env (users 3) []) in
  created.1 = (grace, Ok grace)
  ∧ (get_user_by_id mongo_manager "user-9" created.2).1 = Ok (Some grace).
Proof.
  intros grace created.
  assert (created.1 = (grace, Ok grace)) as Hcreated by reflexivity.
  split; [done|].
  destruct (create_user_then_get_user_by_id mongo_manager HMongo grace
              (world env (users 3) []) grace grace created.2 eq_refl)
    as (_ & _ & _ & Hget).
  { apply unique_ids_decide; vm_compute; reflexivity. }
  { by apply create_user_result. }
  by apply Hget.
Defined.

Lemma create_user_rejects_taken_key_witness :
  let impostor : Dict := {[ "_id" := VStr "user-2"; "name" := VStr "Eve" ]} in
  let refused := create_user mongo_manager impostor (world env (users 3) []) in
  refused.1 = (impostor, Raise Mem.duplicate_key)
  ∧ Mem.docs (mongo_users refused.2) = users 3
  ∧ (get_user_by_id mongo_manager "user-2" refused.2).1 = Ok (Some (user 2)).
Proof.
  intros impostor refused.
  destruct (create_user_rejects_taken_key mongo_manager HMongo impostor
              (VStr "user-2") (world env (users 3) []) eq_refl eq_refl eq_refl)
    as (w' & Hcreate & Hsame & _ & _ & Hget).
  { exists (user 2). split; [|reflexivity].
    apply list_elem_of_In. right. left. reflexivity. }
  subst refused. rewrite Hcreate. cbn [fst snd].
  split; [reflexivity|].
  split; [exact (f_equal Mem.docs (Hsame HMongo))|].
  rewrite Hget. reflexivity.
Defined.

Lemma create_user_then_delete_user_witness :
  let grace : Dict := {[ "_id" := VStr "user-9"; "name" := VStr "Grace" ]} in
  let created := create_user mongo_manager grace (world env (users 3) []) in
  let deleted := delete_user mongo_manager "user-9" created.2 in
  deleted.1 = Ok true ∧ Mem.docs (mongo_users deleted.2) = users 3.
Proof.
  intros grace created deleted.
  destruct (create_user_then_delete_user mongo_manager HMongo grace
              (world env (users 3) []) grace grace created.2 "user-9" eq_refl)
    as (w'' & Hdelete & Hdocs & _).
  { apply create_user_result. reflexivity. }
  { reflexivity. }
  subst deleted. rewrite Hdelete. split; [reflexivity|exact Hdocs].
Defined.

(** Of the 250 records in MongoDB the cursor yields 230 before the
    connection drops: the caller gets the exception and no record. *)
Lemma get_all_users_all_or_nothing_witness :
  (get_all_users mongo_manager dropping_world).1
  = Raise (DriverError "connection reset")
  ∧ trace (get_all_users mongo_manager dropping_world).2 = [Find HMongo].
Proof.
  destruct (get_all_users_all_or_nothing mongo_manager HMongo dropping_world
              eq_refl) as (Htrace & _ & _ & Hraise).
  split; [|exact Htrace].
  apply Hraise. right. eexists. reflexivity.
Defined.

(** The connection to MongoDB drops after 230 of 250 records: the first
    200 are in HCD, the 30 read after them are not, and the report is a
    failure. *)
Lemma migrate_interrupted_keeps_full_batches_witness :
  (sync_mongodb_to_hcd mongo_manager dropping_world).1
  = Ok (failure_report "Sync failed: connection reset")
  ∧ length (Mem.docs (Flaky.store
              (hcd_users (sync_mongodb_to_hcd mongo_manager dropping_world).2)))
    = 200.
Proof.
  pose proof (migrate_interrupted_keeps_full_batches mongo_manager dropping_world
                (take 230 (users 250)) (DriverError "connection reset")
                (coll_find mongo_manager dropping_world).2 hcd_manager
                (temporary_hcd_manager (coll_find mongo_manager dropping_world).2).2)
    as Hrun.
  cbv zeta in Hrun. destruct Hrun as (Hsync & _).
  { reflexivity. }
  { apply (run_result (coll_find mongo_manager)). reflexivity. }
  { apply (run_result temporary_hcd_manager). vm_compute. reflexivity. }
  split; [rewrite Hsync; reflexivity|]. vm_compute. reflexivity.
Defined.

(** Without the HCD settings nothing is written. *)
Lemma migrate_without_destination_changes_nothing_witness :
  (sync_mongodb_to_hcd mongo_manager (world ∅ (users 3) [])).1
  = Ok (failure_report ("Sync failed: " +:+ hcd_incomplete))
  ∧ hcd_users (sync_mongodb_to_hcd mongo_manager (world ∅ (users 3) [])).2
    = store [].
Proof.
  pose (w := world ∅ (users 3) []).
  destruct (migrate_without_destination_changes_nothing mongo_manager w
              (users 3, None) (coll_find mongo_manager w).2
              (ValueError hcd_incomplete)
              (temporary_hcd_manager (coll_find mongo_manager w).2).2)
    as (Hsync & Hsame).
  { reflexivity. }
  { apply (run_result (coll_find mongo_manager)). reflexivity. }
  { apply (run_raises temporary_hcd_manager). vm_compute. reflexivity. }
  fold w. rewrite Hsync. cbn [fst snd]. split; [reflexivity|].
  exact (Hsame HHcd).
Defined.

Lemma migrate_copies_records_unchanged_witness :
  ∃ report w3,
    sync_mongodb_to_hcd mongo_manager (world env (users 250) []) = (Ok report, w3)
    ∧ Mem.docs (hcd_users w3) = users 250
    ∧ mongo_users w3 = store (users 250)
    ∧ report !! "synced_count" = Some (RInt 250).
Proof.
  pose (w := world env (users 250) []).
  destruct (migrate_copies_records_unchanged mongo_manager w (users 250)
              (coll_find mongo_manager w).2 hcd_manager
              (temporary_hcd_manager (coll_find mongo_manager w).2).2)
    as (report & w3 & Hsync & Hdocs & Hsrc & _ & Hn & _).
  { reflexivity. }
  { apply (run_result (coll_find mongo_manager)). reflexivity. }
  { apply (run_result temporary_hcd_manager). vm_compute. reflexivity. }
  { apply no_collisions_decide; vm_compute; reflexivity. }
  exists report, w3. split; [exact Hsync|]. split; [exact Hdocs|].
  split; [exact Hsrc|]. rewrite Hn. vm_compute. reflexivity.
Defined.

(** A second migration right after a first one. *)
Lemma migrate_again_syncs_nothing_witness :
  let first := sync_mongodb_to_hcd mongo_manager (world env (users 7) []) in
  let second := sync_mongodb_to_hcd mongo_manager first.2 in
  ∃ report,
    second.1 = Ok report
    ∧ report !! "synced_count" = Some (RInt 0)
    ∧ hcd_users second.2 = hcd_users first.2
    ∧ length (Mem.docs (hcd_users first.2)) = 7.
Proof.
  intros first second.
  destruct (migrate_again_syncs_nothing mongo_manager first.2 (users 7)
              (coll_find mongo_manager first.2).2 hcd_manager
              (temporary_hcd_manager (coll_find mongo_manager first.2).2).2)
    as (st & w3 & _ & Hsync & Hsame & _ & _ & Hn & _).
  { reflexivity. }
  { apply (run_result (coll_find mongo_manager)). reflexivity. }
  { apply (run_result temporary_hcd_manager). vm_compute. reflexivity. }
  { apply (bool_decide_unpack _). vm_compute. exact I. }
  exists (sync_report st). subst second. rewrite Hsync. cbn [fst snd].
  split; [reflexivity|]. split; [exact Hn|]. split; [exact Hsame|].
  vm_compute. reflexivity.
Defined.

End MoreExamples.
